(** * Smart Financial Coach: the API client and the spending chart

    The repository's sources are the React/TypeScript frontend:
    - [api/client.ts]: the typed fetch wrappers ([handleResponse],
      [uploadCSV], [useSampleData], [analyzeSession], [getDashboard]) and the
      flows built from them ([uploadAndAnalyze], [loadSampleAndAnalyze]);
    - [components/SpendingChart.tsx]: the pie chart data and its legend;
    - [types.ts]: the interfaces mirroring the backend schemas;
    - [App.tsx]: the application's state, its handlers and what it renders;
    - the chat functions of the client ([sendChatMessage],
      [sendChatMessageStream]) and the request the [ChatInterface]
      component makes.

    JavaScript values are embedded as follows.  A string is the list of its
    UTF-16 code units; a number read from JSON is the exact rational its
    literal denotes (a finite double is such a rational, and the comparisons,
    [Math.abs] and the sign of a difference used below are exact on finite
    doubles); a promise is the outcome it settles to. *)

From Stdlib Require Import List ZArith NArith QArith Qminmax Qabs.
From Stdlib Require Import String Ascii DecimalString Bool.
From Stdlib Require Import Sorted Permutation Lia Lqa.
Import ListNotations.

Set Implicit Arguments.
Set Warnings "-register-all".

(* ================================================================== *)
(** ** JavaScript strings, JSON values and [JSON.parse] *)
(* ================================================================== *)

Module JS.

(** A string is a sequence of UTF-16 code units. *)
Definition jstring : Type := list N.

Definition ch (a : ascii) : N := N_of_ascii a.

Definition lit (s : string) : jstring := map ch (list_ascii_of_string s).

Definition c_quote : N := 34.      (* the double quote *)
Definition c_backslash : N := 92.

Fixpoint jstring_eqb (a b : jstring) : bool :=
  match a, b with
  | [], [] => true
  | x :: a', y :: b' => N.eqb x y && jstring_eqb a' b'
  | _, _ => false
  end.

(** JSON values as [JSON.parse] builds them.  An object keeps its members in
    source order, duplicates included; property lookup takes the last one, as
    a later duplicate overwrites an earlier one. *)
Inductive json : Type :=
| JNull
| JBool (b : bool)
| JNum (q : Q)
| JStr (s : jstring)
| JArr (items : list json)
| JObj (fields : list (jstring * json)).

(** *** Lexer *)

Inductive token : Type :=
| TLBrace | TRBrace | TLBracket | TRBracket | TColon | TComma
| TScalar (v : json).

(** The parts of a number literal read so far. *)
Record numacc : Type := mkNum {
  neg : bool;      (* a leading minus *)
  mant : N;        (* the digits of the integer and fraction parts *)
  fracn : N;       (* how many of them follow the decimal point *)
  eneg : bool;     (* a minus in the exponent *)
  expo : N         (* the exponent's digits *)
}.

Definition num0 (sign : bool) (d : N) : numacc := mkNum sign d 0 false 0.

(** The rational a literal denotes: (-1)^neg * mant * 10^(exp - fracn). *)
Definition num_value (a : numacc) : Q :=
  let m := (if neg a then - Z.of_N (mant a) else Z.of_N (mant a))%Z in
  let e := ((if eneg a then - Z.of_N (expo a) else Z.of_N (expo a))
            - Z.of_N (fracn a))%Z in
  if (0 <=? e)%Z then inject_Z (m * 10 ^ e)
  else Qmake m (Z.to_pos (10 ^ (- e))).

Inductive numphase : Type :=
| NSign    (* after the minus: a digit must follow *)
| NZero    (* after a leading 0 *)
| NInt     (* inside the integer part *)
| NDot     (* after the point: a digit must follow *)
| NFrac    (* inside the fraction *)
| NE       (* after e or E *)
| NESign   (* after the exponent's sign *)
| NExp.    (* inside the exponent *)

Definition num_accepting (p : numphase) : bool :=
  match p with NZero | NInt | NFrac | NExp => true | _ => false end.

Definition digit (c : N) : option N :=
  if (ch "0" <=? c)%N && (c <=? ch "9")%N then Some (c - ch "0")%N else None.

Definition hexval (c : N) : option N :=
  if (ch "0" <=? c)%N && (c <=? ch "9")%N then Some (c - ch "0")%N
  else if (ch "a" <=? c)%N && (c <=? ch "f")%N then Some (c - ch "a" + 10)%N
  else if (ch "A" <=? c)%N && (c <=? ch "F")%N then Some (c - ch "A" + 10)%N
  else None.

Definition is_e (c : N) : bool := (c =? ch "e")%N || (c =? ch "E")%N.

Definition push_mant (a : numacc) (d : N) (frac : bool) : numacc :=
  mkNum (neg a) (10 * mant a + d)
        (if frac then fracn a + 1 else fracn a)%N (eneg a) (expo a).

Definition push_expo (a : numacc) (d : N) : numacc :=
  mkNum (neg a) (mant a) (fracn a) (eneg a) (10 * expo a + d).

Definition set_eneg (a : numacc) : numacc :=
  mkNum (neg a) (mant a) (fracn a) true (expo a).

(** One character of a number literal: an optional minus; then 0, or a
    digit 1-9 and any digits; then optionally a point and one or more digits;
    then optionally e or E, an optional sign and one or more digits. *)
Definition num_step (p : numphase) (a : numacc) (c : N)
  : option (numphase * numacc) :=
  match p with
  | NSign =>
      match digit c with
      | Some d => Some (if (d =? 0)%N then NZero else NInt, push_mant a d false)
      | None => None
      end
  | NZero =>
      if (c =? ch ".")%N then Some (NDot, a)
      else if is_e c then Some (NE, a) else None
  | NInt =>
      match digit c with
      | Some d => Some (NInt, push_mant a d false)
      | None =>
          if (c =? ch ".")%N then Some (NDot, a)
          else if is_e c then Some (NE, a) else None
      end
  | NDot =>
      match digit c with
      | Some d => Some (NFrac, push_mant a d true)
      | None => None
      end
  | NFrac =>
      match digit c with
      | Some d => Some (NFrac, push_mant a d true)
      | None => if is_e c then Some (NE, a) else None
      end
  | NE =>
      match digit c with
      | Some d => Some (NExp, push_expo a d)
      | None =>
          if (c =? ch "+")%N then Some (NESign, a)
          else if (c =? ch "-")%N then Some (NESign, set_eneg a) else None
      end
  | NESign | NExp =>
      match digit c with
      | Some d => Some (NExp, push_expo a d)
      | None => None
      end
  end.

Inductive lstate : Type :=
| LIdle
| LWord (rest : list N) (t : token)     (* inside true, false or null *)
| LStr (buf : list N)                   (* inside a string, reversed *)
| LEsc (buf : list N)                   (* after a backslash *)
| LHex (buf : list N) (todo : nat) (v : N)   (* inside \uXXXX *)
| LNum (p : numphase) (a : numacc).

Definition is_ws (c : N) : bool :=
  (c =? 9)%N || (c =? 10)%N || (c =? 13)%N || (c =? 32)%N.

(** A character met between tokens. *)
Definition lex_idle (c : N) : option (lstate * list token) :=
  if is_ws c then Some (LIdle, [])
  else if (c =? ch "{")%N then Some (LIdle, [TLBrace])
  else if (c =? ch "}")%N then Some (LIdle, [TRBrace])
  else if (c =? ch "[")%N then Some (LIdle, [TLBracket])
  else if (c =? ch "]")%N then Some (LIdle, [TRBracket])
  else if (c =? ch ":")%N then Some (LIdle, [TColon])
  else if (c =? ch ",")%N then Some (LIdle, [TComma])
  else if (c =? c_quote)%N then Some (LStr [], [])
  else if (c =? ch "-")%N then Some (LNum NSign (num0 true 0), [])
  else if (c =? ch "t")%N then Some (LWord (lit "rue") (TScalar (JBool true)), [])
  else if (c =? ch "f")%N then Some (LWord (lit "alse") (TScalar (JBool false)), [])
  else if (c =? ch "n")%N then Some (LWord (lit "ull") (TScalar JNull), [])
  else match digit c with
       | Some d => Some (LNum (if (d =? 0)%N then NZero else NInt) (num0 false d), [])
       | None => None
       end.

Definition unescape (c : N) : option N :=
  if (c =? c_quote)%N then Some c_quote
  else if (c =? c_backslash)%N then Some c_backslash
  else if (c =? ch "/")%N then Some (ch "/")
  else if (c =? ch "b")%N then Some 8%N
  else if (c =? ch "f")%N then Some 12%N
  else if (c =? ch "n")%N then Some 10%N
  else if (c =? ch "r")%N then Some 13%N
  else if (c =? ch "t")%N then Some 9%N
  else None.

(** The tokens of a text, or [None] where [JSON.parse] throws a SyntaxError
    while scanning.  [acc] holds the tokens read so far, last first. *)
Fixpoint lex (st : lstate) (acc : list token) (s : list N) : option (list token) :=
  match s with
  | [] =>
      match st with
      | LIdle => Some (rev acc)
      | LNum p a =>
          if num_accepting p then Some (rev (TScalar (JNum (num_value a)) :: acc))
          else None
      | _ => None
      end
  | c :: r =>
      match st with
      | LIdle =>
          match lex_idle c with
          | Some (st', ts) => lex st' (ts ++ acc) r
          | None => None
          end
      | LWord [] _ => None
      | LWord (e :: es) t =>
          if (c =? e)%N then
            match es with
            | [] => lex LIdle (t :: acc) r
            | _ => lex (LWord es t) acc r
            end
          else None
      | LStr buf =>
          if (c =? c_quote)%N then lex LIdle (TScalar (JStr (rev buf)) :: acc) r
          else if (c =? c_backslash)%N then lex (LEsc buf) acc r
          else if (c <? 32)%N then None
          else lex (LStr (c :: buf)) acc r
      | LEsc buf =>
          if (c =? ch "u")%N then lex (LHex buf 4 0) acc r
          else match unescape c with
               | Some u => lex (LStr (u :: buf)) acc r
               | None => None
               end
      | LHex buf todo v =>
          match hexval c with
          | Some d =>
              let v' := (16 * v + d)%N in
              match todo with
              | 0%nat | 1%nat => lex (LStr (v' :: buf)) acc r
              | S n => lex (LHex buf n v') acc r
              end
          | None => None
          end
      | LNum p a =>
          match num_step p a c with
          | Some (p', a') => lex (LNum p' a') acc r
          | None =>
              if num_accepting p then
                match lex_idle c with
                | Some (st', ts) =>
                    lex st' (ts ++ TScalar (JNum (num_value a)) :: acc) r
                | None => None
                end
              else None
          end
      end
  end.

(** *** Parser: a pushdown automaton over the tokens *)

(** An open container: an array with the items read so far, or an object
    with its members read so far and the key whose value is being read
    (both last first). *)
Inductive frame : Type :=
| FArr (items : list json)
| FObj (fields : list (jstring * json)) (key : option jstring).

Inductive pstate : Type :=
| PValue                 (* a value must follow *)
| PArrFirst              (* after [: a value or ] *)
| PObjFirst              (* after {: a key or } *)
| PObjKey                (* after a comma in an object: a key *)
| PObjColon (k : jstring)   (* after a key: the colon *)
| PAfter                 (* after a value in a container: a comma or the end *)
| PEnd (v : json).       (* the text's value is complete *)

(** A complete value goes to the innermost open container, or ends the text. *)
Definition feed (v : json) (stack : list frame) : option (pstate * list frame) :=
  match stack with
  | [] => Some (PEnd v, [])
  | FArr items :: st => Some (PAfter, FArr (v :: items) :: st)
  | FObj fs (Some k) :: st => Some (PAfter, FObj ((k, v) :: fs) None :: st)
  | FObj _ None :: _ => None
  end.

Definition close_arr (stack : list frame) : option (pstate * list frame) :=
  match stack with
  | FArr items :: st => feed (JArr (rev items)) st
  | _ => None
  end.

Definition close_obj (stack : list frame) : option (pstate * list frame) :=
  match stack with
  | FObj fs None :: st => feed (JObj (rev fs)) st
  | _ => None
  end.

Definition open_value (t : token) (stack : list frame)
  : option (pstate * list frame) :=
  match t with
  | TScalar v => feed v stack
  | TLBracket => Some (PArrFirst, FArr [] :: stack)
  | TLBrace => Some (PObjFirst, FObj [] None :: stack)
  | _ => None
  end.

Definition pstep (st : pstate) (stack : list frame) (t : token)
  : option (pstate * list frame) :=
  match st with
  | PValue => open_value t stack
  | PArrFirst =>
      match t with
      | TRBracket => close_arr stack
      | _ => open_value t stack
      end
  | PObjFirst =>
      match t with
      | TScalar (JStr k) => Some (PObjColon k, stack)
      | TRBrace => close_obj stack
      | _ => None
      end
  | PObjKey =>
      match t with
      | TScalar (JStr k) => Some (PObjColon k, stack)
      | _ => None
      end
  | PObjColon k =>
      match t, stack with
      | TColon, FObj fs None :: rest => Some (PValue, FObj fs (Some k) :: rest)
      | _, _ => None
      end
  | PAfter =>
      match t, stack with
      | TComma, FArr _ :: _ => Some (PValue, stack)
      | TComma, FObj _ None :: _ => Some (PObjKey, stack)
      | TRBracket, _ => close_arr stack
      | TRBrace, _ => close_obj stack
      | _, _ => None
      end
  | PEnd _ => None
  end.

Fixpoint parse_tokens (st : pstate) (stack : list frame) (ts : list token)
  : option json :=
  match ts with
  | [] => match st, stack with PEnd v, [] => Some v | _, _ => None end
  | t :: r =>
      match pstep st stack t with
      | Some (st', stack') => parse_tokens st' stack' r
      | None => None
      end
  end.

(** [JSON.parse text]: the value, or [None] where it throws a SyntaxError. *)
Definition JSON_parse (text : jstring) : option json :=
  match lex LIdle [] text with
  | Some ts => parse_tokens PValue [] ts
  | None => None
  end.

(** *** Values, property access and truthiness *)

(** A JavaScript value in this program: [undefined] or a value that came
    out of [JSON.parse]. *)
Inductive value : Type :=
| Undefined
| Val (j : json).

(** The last member named [k], as a property read sees it. *)
Fixpoint lookup (k : jstring) (fields : list (jstring * json)) : value :=
  match fields with
  | [] => Undefined
  | (k', v) :: rest =>
      match lookup k rest with
      | Undefined => if jstring_eqb k k' then Val v else Undefined
      | found => found
      end
  end.

(** A number is falsy when it is zero.  A literal is read as the nearest
    double, ties to even, so it is zero exactly when its magnitude is at most
    2^-1075, half the least subnormal. *)
Definition reads_as_zero (q : Q) : bool :=
  Qle_bool (Qabs q) (Qmake 1 (2 ^ 1075)).

Definition truthy (v : value) : bool :=
  match v with
  | Undefined => false
  | Val JNull => false
  | Val (JBool b) => b
  | Val (JNum q) => negb (reads_as_zero q)
  | Val (JStr s) => match s with [] => false | _ => true end
  | Val (JArr _) | Val (JObj _) => true
  end.

(** The decimal digits of a natural number, as a template literal prints
    it. *)
Definition show_N (n : N) : jstring := lit (NilZero.string_of_uint (N.to_uint n)).

(** *** [Array.prototype.sort] with a comparator

    The sort is stable: [a] stays before [b] unless [compareFn a b] is
    positive.  With a consistent comparator the result does not depend on
    the algorithm; this is insertion from the right. *)
Section ArraySort.
Variable A : Type.
Variable compareFn : A -> A -> Q.

Fixpoint insert (x : A) (l : list A) : list A :=
  match l with
  | [] => [x]
  | y :: l' => if Qle_bool (compareFn x y) 0 then x :: l else y :: insert x l'
  end.

Definition sort (l : list A) : list A := fold_right insert [] l.
End ArraySort.

(** [x < y] *)
Definition Qltb (x y : Q) : bool := negb (Qle_bool y x).

(** What a promise settles to. *)
Inductive outcome (E A : Type) : Type :=
| Resolved (a : A)
| Rejected (e : E).
Arguments Resolved {E A} a.
Arguments Rejected {E A} e.

Definition bind {E A B} (m : outcome E A) (f : A -> outcome E B) : outcome E B :=
  match m with
  | Resolved a => f a
  | Rejected e => Rejected e
  end.

(** try { body } catch { handler } *)
Definition try_catch {E A} (body : outcome E A) (handler : E -> outcome E A)
  : outcome E A :=
  match body with
  | Resolved a => Resolved a
  | Rejected e => handler e
  end.

End JS.

(* ================================================================== *)
(** ** The API client ([api/client.ts]) *)
(* ================================================================== *)

Module Client.
Import JS.

Definition API_BASE : string := "http://localhost:8000".

(** What a promise of this module rejects with.  [ApiError] is the class of
    the source: its message, [status] and [details] (declared a string, and
    at run time whatever the error body held). *)
Inductive error : Type :=
| ApiError (message : jstring) (status : N) (details : value)
| SyntaxError      (* JSON.parse or response.json() on a malformed text *)
| TypeError        (* a property read on null *)
| NetworkError.    (* fetch itself rejected *)

Definition promise (A : Type) : Type := outcome error A.

(** A fetch Response whose body has arrived: the status code and the body
    text.  [response.ok] is the Fetch standard's: a status in 200..299. *)
Record Response : Type := mkResponse {
  status : N;
  body : jstring
}.

Definition ok (response : Response) : bool :=
  (200 <=? status response)%N && (status response <=? 299)%N.

(** [response.text()] *)
Definition text (response : Response) : promise jstring :=
  Resolved (body response).

(** [response.json()]: the body parsed as JSON, rejected with a SyntaxError
    when it is not JSON. *)
Definition json_body (response : Response) : promise json :=
  match JSON_parse (body response) with
  | Some j => Resolved j
  | None => Rejected SyntaxError
  end.

(** [JSON.parse(s)], which throws a SyntaxError on a malformed text. *)
Definition parse (s : jstring) : promise json :=
  match JSON_parse s with
  | Some j => Resolved j
  | None => Rejected SyntaxError
  end.

(** [o.k] for a key that names no built-in property of strings, arrays,
    numbers or booleans ([detail], [message] and [session_id] are such):
    reading it off [null] throws, off an object it yields the member, off any
    other value [undefined]. *)
Definition get (o : json) (k : jstring) : promise value :=
  match o with
  | JNull => Rejected TypeError
  | JObj fields => Resolved (lookup k fields)
  | _ => Resolved Undefined
  end.

Notation "x <- m ;; k" := (bind m (fun x => k))
  (at level 61, m at next level, right associativity).

(** [handleResponse] (client.ts, lines 38-58). *)
Definition handleResponse (response : Response) : promise json :=
  if negb (ok response) then
    errorBody <- text response ;;
    details <-
      try_catch
        (parsed <- parse errorBody ;;
         detail <- get parsed (lit "detail") ;;
         if truthy detail then Resolved detail
         else get parsed (lit "message"))
        (fun _ => Resolved (Val (JStr errorBody))) ;;
    Rejected (ApiError (lit "API Error: " ++ show_N (status response))
                       (status response) details)
  else json_body response.

(** *** Requests and the programs that await them *)

Definition File : Type := string.    (* the uploaded file, by its name *)

Inductive method : Type := GET | POST.

Inductive payload : Type :=
| NoBody
| FormData (file : File).             (* a form with the one field [file] *)

(** A call of [fetch].  The URL is the template literal of the source:
    [API_BASE], a path, and for the session endpoints the value interpolated
    after it. *)
Record request : Type := mkRequest {
  req_base : string;
  req_path : string;
  req_arg : option value;
  req_method : method;
  req_body : payload
}.

(** An asynchronous function body: it settles, awaits a fetch, or calls the
    progress callback. *)
Inductive io (A : Type) : Type :=
| Settle (o : promise A)
| Await (r : request) (k : Response -> io A)
| Notify (step : string) (k : io A).

Arguments Settle {A} o.

Fixpoint io_bind {A B} (m : io A) (f : A -> io B) : io B :=
  match m with
  | Settle (Resolved a) => f a
  | Settle (Rejected e) => Settle (Rejected e)
  | Await r k => Await r (fun resp => io_bind (k resp) f)
  | Notify s k => Notify s (io_bind k f)
  end.

Notation "x <~ m ;; k" := (io_bind m (fun x => k))
  (at level 61, m at next level, right associativity).

Definition fetch (r : request) : io Response :=
  Await r (fun resp => Settle (Resolved resp)).

(** [onProgress?.(step)]: the callback is called when one was passed. *)
Definition progress (onProgress : bool) (step : string) : io unit :=
  if onProgress then Notify step (Settle (Resolved tt)) else Settle (Resolved tt).

Definition upload_request (file : File) : request :=
  mkRequest API_BASE "/upload" None POST (FormData file).

Definition sample_request : request :=
  mkRequest API_BASE "/sample" None POST NoBody.

Definition analyze_request (sessionId : value) : request :=
  mkRequest API_BASE "/analyze/" (Some sessionId) POST NoBody.

Definition dashboard_request (sessionId : value) : request :=
  mkRequest API_BASE "/dashboard/" (Some sessionId) GET NoBody.

(** [uploadCSV] (lines 82-92). *)
Definition uploadCSV (file : File) : io json :=
  response <~ fetch (upload_request file) ;;
  Settle (handleResponse response).

(** [useSampleData] (lines 97-103). *)
Definition useSampleData : io json :=
  response <~ fetch sample_request ;;
  Settle (handleResponse response).

(** [analyzeSession] (lines 113-119). *)
Definition analyzeSession (sessionId : value) : io json :=
  response <~ fetch (analyze_request sessionId) ;;
  Settle (handleResponse response).

(** [getDashboard] (lines 128-131). *)
Definition getDashboard (sessionId : value) : io json :=
  response <~ fetch (dashboard_request sessionId) ;;
  Settle (handleResponse response).

(** [uploadAndAnalyze] (lines 199-214).  [uploadResult.session_id] is read
    once for each call it is passed to, after the progress callback that
    precedes the call. *)
Definition uploadAndAnalyze (file : File) (onProgress : bool) : io json :=
  _ <~ progress onProgress "Uploading file..." ;;
  uploadResult <~ uploadCSV file ;;
  _ <~ progress onProgress "Analyzing transactions..." ;;
  sessionId <~ Settle (get uploadResult (lit "session_id")) ;;
  _ <~ analyzeSession sessionId ;;
  _ <~ progress onProgress "Loading dashboard..." ;;
  sessionId' <~ Settle (get uploadResult (lit "session_id")) ;;
  getDashboard sessionId'.

(** [loadSampleAndAnalyze] (lines 219-233). *)
Definition loadSampleAndAnalyze (onProgress : bool) : io json :=
  _ <~ progress onProgress "Loading sample data..." ;;
  uploadResult <~ useSampleData ;;
  _ <~ progress onProgress "Analyzing transactions..." ;;
  sessionId <~ Settle (get uploadResult (lit "session_id")) ;;
  _ <~ analyzeSession sessionId ;;
  _ <~ progress onProgress "Loading dashboard..." ;;
  sessionId' <~ Settle (get uploadResult (lit "session_id")) ;;
  getDashboard sessionId'.

(** *** Running a program against the network *)

(** What can be observed of a run, in the order it happens. *)
Inductive event : Type :=
| EvProgress (step : string)                    (* the callback was called *)
| EvRequest (r : request)                       (* fetch was called *)
| EvSettled (r : request) (res : promise Response).   (* its promise settled *)

(** The network: what the fetch of a request settles to, given all that
    happened before. *)
Definition network : Type := list event -> request -> promise Response.

Fixpoint run {A} (net : network) (tr : list event) (p : io A)
  : list event * promise A :=
  match p with
  | Settle o => (tr, o)
  | Notify s k => run net (tr ++ [EvProgress s]) k
  | Await r k =>
      let tr1 := tr ++ [EvRequest r] in
      match net tr1 r with
      | Resolved resp => run net (tr1 ++ [EvSettled r (Resolved resp)]) (k resp)
      | Rejected e => (tr1 ++ [EvSettled r (Rejected e)], Rejected e)
      end
  end.

Definition trace {A} (net : network) (p : io A) : list event :=
  fst (run net [] p).

Definition result {A} (net : network) (p : io A) : promise A :=
  snd (run net [] p).



End Client.

(* ================================================================== *)
(** ** The interfaces of [types.ts] used below *)
(* ================================================================== *)

Module Types.
Import JS.

Record CategorySpending : Type := mkCategorySpending {
  amount : Q;
  count : Z;
  icon : option jstring;
  color : option jstring;
  is_essential : bool
}.

(** [by_category] is a [Record<string, CategorySpending>]: its entries, in
    the order [Object.entries] lists them. *)
Record SpendingSummary : Type := mkSpendingSummary {
  total_income : Q;
  total_spending : Q;
  net : Q;
  by_category : list (jstring * CategorySpending)
}.

End Types.

(* ================================================================== *)
(** ** The spending chart ([components/SpendingChart.tsx]) *)
(* ================================================================== *)

Module Chart.
Import JS Types.

Definition MONOCHROME_COLORS : list string :=
  ["#1C1C1C"; "#5F5B57"; "#8C877F"; "#B5B0A8"; "#D4D0C8"; "#E6E2DC"; "#F0EDE8"]%string.

(** An element of [chartData]. *)
Record ChartItem : Type := mkChartItem {
  name : jstring;
  value : Q;
  item_icon : option jstring
}.

Definition is_expense (entry : jstring * CategorySpending) : bool :=
  Qltb (amount (snd entry)) 0.

Definition to_item (entry : jstring * CategorySpending) : ChartItem :=
  mkChartItem (fst entry) (Qabs (amount (snd entry))) (icon (snd entry)).

(** The comparator of the source: [(a, b) => b.value - a.value]. *)
Definition by_value_desc (a b : ChartItem) : Q := value b - value a.

(** [chartData] (lines 28-35). *)
Definition chartData (summary : SpendingSummary) : list ChartItem :=
  sort by_value_desc (map to_item (filter is_expense (by_category summary))).

(** The colour of the cell or legend mark at [index]:
    [MONOCHROME_COLORS[index % MONOCHROME_COLORS.length]]. *)
Definition fill (index : nat) : string :=
  nth (index mod List.length MONOCHROME_COLORS) MONOCHROME_COLORS ""%string.

(** One legend row: its colour mark and the item it names.  (The amount is
    printed by [Intl.NumberFormat], which is left out.) *)
Record LegendRow : Type := mkLegendRow {
  mark : string;
  item : ChartItem
}.

Fixpoint rows_from (index : nat) (items : list ChartItem) : list LegendRow :=
  match items with
  | [] => []
  | it :: rest => mkLegendRow (fill index) it :: rows_from (S index) rest
  end.

(** The legend (lines 100-121): a row for each of [chartData.slice(0, 5)],
    then the note when [chartData.length > 5]. *)
Definition legend_rows (summary : SpendingSummary) : list LegendRow :=
  rows_from 0 (firstn 5 (chartData summary)).

Definition legend_note (summary : SpendingSummary) : option jstring :=
  let n := List.length (chartData summary) in
  if (5 <? n)%nat
  then Some (lit "+" ++ show_N (N.of_nat (n - 5)) ++ lit " more categories")
  else None.

End Chart.

(* ================================================================== *)
(** ** Reading a run of the client flows *)
(* ================================================================== *)

Module Flow.
Import JS Client.

(** The two flows of [client.ts]: [uploadAndAnalyze file] and
    [loadSampleAndAnalyze]. *)
Inductive flow : Type :=
| Upload (file : File)
| Sample.

Definition program (f : flow) (onProgress : bool) : io json :=
  match f with
  | Upload file => uploadAndAnalyze file onProgress
  | Sample => loadSampleAndAnalyze onProgress
  end.

(** The request that yields the session. *)
Definition first_request (f : flow) : request :=
  match f with
  | Upload file => upload_request file
  | Sample => sample_request
  end.

(** The step a flow reports before its first request. *)
Definition first_step (f : flow) : string :=
  match f with
  | Upload _ => "Uploading file..."
  | Sample => "Loading sample data..."
  end.

(** The requests of a trace, in the order they were made. *)
Fixpoint requests_of (tr : list event) : list request :=
  match tr with
  | [] => []
  | EvRequest r :: rest => r :: requests_of rest
  | _ :: rest => requests_of rest
  end.

(** The answers of a trace, each with its request, in the order they
    arrived. *)
Fixpoint settlements_of (tr : list event) : list (request * promise Response) :=
  match tr with
  | [] => []
  | EvSettled r res :: rest => (r, res) :: settlements_of rest
  | _ :: rest => settlements_of rest
  end.

(** The steps reported to the progress callback, in order. *)
Fixpoint progress_of (tr : list event) : list string :=
  match tr with
  | [] => []
  | EvProgress step :: rest => step :: progress_of rest
  | _ :: rest => progress_of rest
  end.


(** A trace in which every request is announced: a progress step comes
    right before each request, and nothing else happens but a last step
    after which no request was made. *)
Inductive announced : list event -> Prop :=
| announced_nil : announced []
| announced_last (step : string) : announced [EvProgress step]
| announced_fetch (step : string) (r : request) (res : promise Response)
                  (tr : list event) :
    announced tr ->
    announced (EvProgress step :: EvRequest r :: EvSettled r res :: tr).

End Flow.

(* ================================================================== *)
(** ** The pie's cells ([components/SpendingChart.tsx], lines 87-92) *)
(* ================================================================== *)

Module Pie.
Import JS Types Chart.

(** The fill of each cell of the pie, one cell for each element of
    [chartData]:
    [chartData.map((_, index) => <Cell fill={MONOCHROME_COLORS[index % MONOCHROME_COLORS.length]} />)]. *)
Definition cell_fills (summary : SpendingSummary) : list string :=
  map fill (seq 0 (List.length (chartData summary))).

(** Two chart items show the same amount. *)
Definition same_value (v : Q) (it : ChartItem) : bool := Qeq_bool (value it) v.

End Pie.

(* ================================================================== *)
(** ** The application ([App.tsx]) *)
(* ================================================================== *)

Module App.
Import JS Client Flow.

(** [AppView] of [types.ts]. *)
Inductive AppView : Type := upload | analyzing | dashboard.

(** The state of the [App] component.  [dashboardData] and [error] are a JSON
    value or [null], which is [JNull]. *)
Record State : Type := mkState {
  view : AppView;
  dashboardData : json;
  isLoading : bool;
  error : json;
  loadingStep : string
}.

(** The state on mount: the initial values given to [useState]. *)
Definition initial : State := mkState upload JNull false JNull "".

Definition setView (v : AppView) (st : State) : State :=
  mkState v (dashboardData st) (isLoading st) (error st) (loadingStep st).

Definition setDashboardData (d : json) (st : State) : State :=
  mkState (view st) d (isLoading st) (error st) (loadingStep st).

Definition setIsLoading (b : bool) (st : State) : State :=
  mkState (view st) (dashboardData st) b (error st) (loadingStep st).

Definition setError (e : json) (st : State) : State :=
  mkState (view st) (dashboardData st) (isLoading st) e (loadingStep st).

Definition setLoadingStep (step : string) (st : State) : State :=
  mkState (view st) (dashboardData st) (isLoading st) (error st) step.

Section Handlers.
(** The [message] the JavaScript engine gives a SyntaxError, a TypeError or
    a failed fetch. *)
Variable engine_message : Client.error -> jstring.

(** [err.message] *)
Definition message (err : Client.error) : jstring :=
  match err with
  | ApiError m _ _ => m
  | _ => engine_message err
  end.

(** [err.details]: defined by [ApiError] only. *)
Definition details (err : Client.error) : value :=
  match err with
  | ApiError _ _ d => d
  | _ => Undefined
  end.

(** [(err as { details?: string }).details || err.message].  Whatever a
    flow rejects with is an [Error], so the other branch of the conditional
    in the source, the fixed text, is never taken. *)
Definition errorMessage (err : Client.error) : json :=
  match details err with
  | Val d => if truthy (Val d) then d else JStr (message err)
  | Undefined => JStr (message err)
  end.

(** The progress callback the handlers pass: [(step) => setLoadingStep(step)]. *)
Definition report (st : State) (ev : event) : State :=
  match ev with
  | EvProgress step => setLoadingStep step st
  | _ => st
  end.

(** The state while a handler's flow is under way, after the events [seen]
    so far: the three updates made before the flow, then the callback's. *)
Definition under_way (st : State) (seen : list event) : State :=
  fold_left report seen (setView analyzing (setError JNull (setIsLoading true st))).

(** The body shared by [handleFileUpload] (lines 24-49) and
    [handleUseSampleData] (lines 52-77), run to completion against a
    network: the three updates before the flow, the callback during it, the
    [try] or the [catch] branch after it, then the [finally] block. *)
Definition run_handler (net : network) (f : flow) (st : State) : State :=
  let st := under_way st (trace net (program f true)) in
  let st :=
    match result net (program f true) with
    | Resolved data => setView dashboard (setDashboardData data st)
    | Rejected err => setView upload (setError (errorMessage err) st)
    end in
  setLoadingStep "" (setIsLoading false st).

Definition handleFileUpload (net : network) (file : File) (st : State) : State :=
  run_handler net (Upload file) st.

Definition handleUseSampleData (net : network) (st : State) : State :=
  run_handler net Sample st.

(** [handleReset] (lines 80-84). *)
Definition handleReset (st : State) : State :=
  setError JNull (setDashboardData JNull (setView upload st)).

(** What the user can do, each upload with the network of its time. *)
Inductive action : Type :=
| FileUpload (net : network) (file : File)
| UseSampleData (net : network)
| Reset.

Definition act (st : State) (a : action) : State :=
  match a with
  | FileUpload net file => handleFileUpload net file st
  | UseSampleData net => handleUseSampleData net st
  | Reset => handleReset st
  end.
End Handlers.

(** What [App] renders (lines 87-109): the upload screen with its two
    handlers, the analyzing screen, or the dashboard with the reset handler;
    the dashboard view without data shows the analyzing screen. *)
Inductive Screen : Type :=
| UploadScreen (isLoading : bool) (error : json)
| AnalyzingScreen (step : string)
| DashboardScreen (data : json).

Definition render (st : State) : Screen :=
  match view st with
  | upload => UploadScreen (isLoading st) (error st)
  | analyzing => AnalyzingScreen (loadingStep st)
  | dashboard =>
      if truthy (Val (dashboardData st))
      then DashboardScreen (dashboardData st)
      else AnalyzingScreen "Loading dashboard..."
  end.

(** The handlers a screen is given as props. *)
Definition offered (screen : Screen) (a : action) : bool :=
  match screen, a with
  | UploadScreen _ _, FileUpload _ _ => true
  | UploadScreen _ _, UseSampleData _ => true
  | DashboardScreen _, Reset => true
  | _, _ => false
  end.

(** The states the application can rest in: the initial one, and those a
    handler offered by the current screen leads to. *)
Inductive reachable (engine_message : Client.error -> jstring) : State -> Prop :=
| reachable_initial : reachable engine_message initial
| reachable_act (st : State) (a : action) :
    reachable engine_message st ->
    offered (render st) a = true ->
    reachable engine_message (act engine_message st a).

(** [s.includes(sub)] on strings of the source text. *)
Fixpoint includes (s sub : string) : bool :=
  if String.prefix sub s then true
  else match s with
       | EmptyString => false
       | String _ rest => includes rest sub
       end.

(** [AnalyzingView] (lines 120-161): the text under the title, and whether
    the step indicators are lit; the four [StepItem]s are given the same
    [isActive]. *)
Definition shown_step (step : string) : string :=
  match step with
  | EmptyString => "Processing transactions..."
  | _ => step
  end.

Definition indicators_lit (step : string) : bool := includes step "Analyzing".

End App.

(* ================================================================== *)
(** ** The chat requests ([api/client.ts] and the [ChatInterface] component) *)
(* ================================================================== *)

Module Chat.
Import JS.

(** *** [JSON.stringify] on the body of a chat request

    The body is an object literal whose properties hold a string, [null] or
    [undefined]; no indentation is asked for. *)

Inductive property : Type :=
| PUndefined
| PNull
| PString (s : jstring).

Definition hexdigit (d : N) : N :=
  if (d <? 10)%N then (ch "0" + d)%N else (ch "a" + (d - 10))%N.

(** A backslash, [u] and the four lowercase hexadecimal digits of a code
    unit. *)
Definition UnicodeEscape (c : N) : jstring :=
  [c_backslash; ch "u"; hexdigit (c / 4096); hexdigit ((c / 256) mod 16);
   hexdigit ((c / 16) mod 16); hexdigit (c mod 16)]%N.

(** The code units written as a backslash and one character: backspace,
    tab, line feed, form feed, carriage return, the double quote and the
    backslash. *)
Definition short_escape (c : N) : option N :=
  if (c =? 8)%N then Some (ch "b")
  else if (c =? 9)%N then Some (ch "t")
  else if (c =? 10)%N then Some (ch "n")
  else if (c =? 12)%N then Some (ch "f")
  else if (c =? 13)%N then Some (ch "r")
  else if (c =? c_quote)%N then Some c_quote
  else if (c =? c_backslash)%N then Some c_backslash
  else None.

Definition is_leading_surrogate (c : N) : bool :=
  (55296 <=? c)%N && (c <=? 56319)%N.

Definition is_trailing_surrogate (c : N) : bool :=
  (56320 <=? c)%N && (c <=? 57343)%N.

(** The characters between the quotes.  The string is read by code points:
    a leading surrogate followed by a trailing one is a pair and is copied;
    a surrogate that is not part of a pair is escaped, as is a code unit
    below the space. *)
Fixpoint quote_units (s : jstring) : jstring :=
  match s with
  | [] => []
  | c :: r =>
      match short_escape c with
      | Some e => c_backslash :: e :: quote_units r
      | None =>
          if (c <? 32)%N then UnicodeEscape c ++ quote_units r
          else if is_leading_surrogate c then
            match r with
            | d :: r' =>
                if is_trailing_surrogate d then c :: d :: quote_units r'
                else UnicodeEscape c ++ quote_units r
            | [] => UnicodeEscape c
            end
          else if is_trailing_surrogate c then UnicodeEscape c ++ quote_units r
          else c :: quote_units r
      end
  end.

(** QuoteJSONString *)
Definition QuoteJSONString (s : jstring) : jstring :=
  c_quote :: quote_units s ++ [c_quote].

(** SerializeJSONProperty: [undefined] has no text. *)
Definition SerializeJSONProperty (v : property) : option jstring :=
  match v with
  | PUndefined => None
  | PNull => Some (lit "null")
  | PString s => Some (QuoteJSONString s)
  end.

(** The members of an object: a property whose value has no text is left
    out. *)
Fixpoint members (props : list (jstring * property)) : list jstring :=
  match props with
  | [] => []
  | (k, v) :: rest =>
      match SerializeJSONProperty v with
      | Some str => (QuoteJSONString k ++ lit ":" ++ str) :: members rest
      | None => members rest
      end
  end.

Fixpoint join (sep : jstring) (parts : list jstring) : jstring :=
  match parts with
  | [] => []
  | [p] => p
  | p :: rest => p ++ sep ++ join sep rest
  end.

Definition JSON_stringify (props : list (jstring * property)) : jstring :=
  lit "{" ++ join (lit ",") (members props) ++ lit "}".

(** A string of UTF-16 code units. *)
Definition utf16 (s : jstring) : Prop := Forall (fun c => (c < 65536)%N) s.

Definition utf16_property (v : property) : Prop :=
  match v with
  | PString s => utf16 s
  | _ => True
  end.

(** The members [JSON.parse] builds for the body's object literal. *)
Definition parsed_members (message : jstring) (conversationId : property)
  : list (jstring * json) :=
  (lit "message", JStr message)
  :: match conversationId with
     | PUndefined => []
     | PNull => [(lit "conversation_id", JNull)]
     | PString id => [(lit "conversation_id", JStr id)]
     end.

(** *** The requests *)

Record request : Type := mkRequest {
  url : jstring;
  method : Client.method;
  headers : list (string * string);
  body : jstring
}.

(** The call of [fetch] both functions make; [tail] is what follows the
    session id in the URL. *)
Definition chat_request (tail : string) (sessionId message : jstring)
    (conversationId : property) : request :=
  mkRequest (lit Client.API_BASE ++ lit "/chat/" ++ sessionId ++ lit tail)
            Client.POST
            [("Content-Type"%string, "application/json"%string)]
            (JSON_stringify [ (lit "message", PString message);
                              (lit "conversation_id", conversationId) ]).

Section Fetch.
Variable fetch : request -> Client.promise Client.Response.

(** [sendChatMessage] (client.ts, lines 243-260). *)
Definition sendChatMessage (sessionId message : jstring)
    (conversationId : property) : Client.promise json :=
  bind (fetch (chat_request "/sync" sessionId message conversationId))
       Client.handleResponse.

(** [sendChatMessageStream] (client.ts, lines 266-281). *)
Definition sendChatMessageStream (sessionId message : jstring)
    (conversationId : property) : Client.promise Client.Response :=
  fetch (chat_request "" sessionId message conversationId).

End Fetch.

End Chat.

Module ChatInterface.
Import JS.

(** White space and line terminators, as [String.prototype.trim] removes
    them: tab, line feed, vertical tab, form feed, carriage return, space,
    no-break space, the space separators U+1680, U+2000 to U+200A, U+202F,
    U+205F and U+3000, the line and paragraph separators, and U+FEFF. *)
Definition is_white_space (c : N) : bool :=
  ((9 <=? c)%N && (c <=? 13)%N)
  || (c =? 32)%N || (c =? 160)%N || (c =? 5760)%N
  || ((8192 <=? c)%N && (c <=? 8202)%N)
  || (c =? 8232)%N || (c =? 8233)%N || (c =? 8239)%N || (c =? 8287)%N
  || (c =? 12288)%N || (c =? 65279)%N.

Fixpoint trim_start (s : jstring) : jstring :=
  match s with
  | [] => []
  | c :: r => if is_white_space c then trim_start r else s
  end.

Definition trim_end (s : jstring) : jstring := rev (trim_start (rev s)).

Definition trim (s : jstring) : jstring := trim_end (trim_start s).

Definition is_empty (s : jstring) : bool :=
  match s with [] => true | _ => false end.

(** The call of [fetch] in [sendMessage] of [ChatInterface] (lines 225-258),
    [None] when the function returns at its first line.  [conversationId]
    is the component's state, a string or [null]. *)
Definition sendMessage_fetch (sessionId : jstring)
    (conversationId : option jstring) (isLoading : bool)
    (messageText : jstring) : option Chat.request :=
  if is_empty (trim messageText) || isLoading then None
  else
    Some (Chat.mkRequest
            (lit "http://localhost:8000/chat/" ++ sessionId ++ lit "/sync")
            Client.POST
            [("Content-Type"%string, "application/json"%string)]
            (Chat.JSON_stringify
               [ (lit "message", Chat.PString (trim messageText));
                 (lit "conversation_id",
                  match conversationId with
                  | None => Chat.PNull
                  | Some id => Chat.PString id
                  end) ])).

End ChatInterface.

(* ================================================================== *)
(** ** Sample inputs *)
(* ================================================================== *)

(** The error body of a 404 from the backend: an object with a [detail]. *)
Definition not_found_body : JS.jstring :=
  JS.lit "{" ++ [JS.c_quote] ++ JS.lit "detail" ++ [JS.c_quote] ++ JS.lit ": "
    ++ [JS.c_quote] ++ JS.lit "Session not found" ++ [JS.c_quote] ++ JS.lit "}".

(** The body of an answer that names the session. *)
Definition session_body : JS.jstring :=
  JS.lit "{" ++ [JS.c_quote] ++ JS.lit "session_id" ++ [JS.c_quote] ++ JS.lit ":"
    ++ [JS.c_quote] ++ JS.lit "abc-123" ++ [JS.c_quote] ++ JS.lit "}".

(** A network that answers every request with a 200 and that body. *)
Definition always_ok : Client.network :=
  fun _ _ => JS.Resolved (Client.mkResponse 200 session_body).


(** A network that accepts the upload and the analysis, and answers the
    dashboard request with a 200 whose body is the JSON text null. *)
Definition null_dashboard : Client.network :=
  fun _ r =>
    if String.eqb (Client.req_path r) "/dashboard/"
    then JS.Resolved (Client.mkResponse 200 (JS.lit "null"))
    else JS.Resolved (Client.mkResponse 200 session_body).

(** An engine whose built-in errors all carry the same message. *)
Definition plain_engine : Client.error -> JS.jstring :=
  fun _ => JS.lit "Failed to fetch".

(** The network when the backend is down: every request is answered with
    a 503 whose body is not JSON. *)
Definition always_unavailable : Client.network :=
  fun _ _ => JS.Resolved (Client.mkResponse 503 (JS.lit "Service Unavailable")).

Definition spending (a : Q) : Types.CategorySpending :=
  Types.mkCategorySpending a 1 None None false.

(** A summary with six expense categories and one income category. *)
Definition sample_summary : Types.SpendingSummary :=
  Types.mkSpendingSummary 3200 (- (2590 # 1)) 610
    [ (JS.lit "Dining", spending (- (300 # 1)));
      (JS.lit "Housing", spending (- (1500 # 1)));
      (JS.lit "Income", spending 3200);
      (JS.lit "Streaming", spending (- (1599 # 100)));
      (JS.lit "Shopping", spending (- (450 # 1)));
      (JS.lit "Transport", spending (- (12401 # 100)));
      (JS.lit "Groceries", spending (- (200 # 1))) ].

(** A message with a quote, a backslash, a line feed, a bell and a lone
    trailing surrogate. *)
Definition awkward_message : JS.jstring :=
  JS.lit "say " ++ [JS.c_quote] ++ JS.lit "hi"
    ++ [JS.c_quote; JS.c_backslash; 10; 7; 56832]%N.

(** A backend that is down, seen from the chat functions. *)
Definition chat_unavailable : Chat.request -> Client.promise Client.Response :=
  fun _ => JS.Resolved (Client.mkResponse 503 (JS.lit "Service Unavailable")).

(* ================================================================== *)
(** * Properties *)
(* ================================================================== *)

(** ** [Array.prototype.sort] *)

Section SortFacts.
Import JS.
Variable A : Type.
Variable compareFn : A -> A -> Q.

(** [a] may stand before [b]. *)
Let le (a b : A) : Prop := compareFn a b <= 0.

Lemma insert_perm (x : A) (l : list A) :
  Permutation (insert compareFn x l) (x :: l).
Proof.
  induction l as [|y l IH]; simpl.
  - apply Permutation_refl.
  - destruct (Qle_bool (compareFn x y) 0).
    + apply Permutation_refl.
    + eapply perm_trans; [apply perm_skip, IH | apply perm_swap].
Qed.

Lemma sort_perm (l : list A) : Permutation (sort compareFn l) l.
Proof.
  induction l as [|x l IH]; simpl.
  - constructor.
  - eapply perm_trans; [apply insert_perm | apply perm_skip, IH].
Qed.

(** A consistent comparator: any two elements are comparable one way or
    the other, and the order is transitive. *)
Hypothesis le_total : forall a b, le a b \/ le b a.
Hypothesis le_trans : forall a b c, le a b -> le b c -> le a c.

Lemma insert_sorted (x : A) (l : list A) :
  StronglySorted le l -> StronglySorted le (insert compareFn x l).
Proof.
  induction l as [|y l IH]; simpl; intros Hs.
  - repeat constructor.
  - apply StronglySorted_inv in Hs. destruct Hs as [Hl Hy].
    destruct (Qle_bool (compareFn x y) 0) eqn:E.
    + apply Qle_bool_iff in E.
      constructor; [constructor; assumption|].
      constructor; [exact E|].
      rewrite Forall_forall in *. intros z Hz.
      apply le_trans with y; [exact E | apply Hy, Hz].
    + assert (Hyx : le y x).
      { destruct (le_total x y) as [H|H]; [|exact H].
        apply Qle_bool_iff in H. unfold le in *. congruence. }
      constructor; [apply IH, Hl|].
      rewrite Forall_forall in *. intros z Hz.
      apply (Permutation_in _ (insert_perm x l)) in Hz.
      destruct Hz as [<-|Hz]; [exact Hyx | apply Hy, Hz].
Qed.

Lemma sort_sorted (l : list A) : StronglySorted le (sort compareFn l).
Proof.
  induction l as [|x l IH]; simpl.
  - constructor.
  - apply insert_sorted, IH.
Qed.
End SortFacts.

Lemma Qltb_lt (x y : Q) : JS.Qltb x y = true <-> x < y.
Proof.
  unfold JS.Qltb. rewrite negb_true_iff.
  split; intros H.
  - apply Qnot_le_lt. intros Hle. apply Qle_bool_iff in Hle. congruence.
  - destruct (Qle_bool y x) eqn:E; [|reflexivity].
    apply Qle_bool_iff in E. exfalso. exact (Qlt_not_le _ _ H E).
Qed.

(** ** The spending chart *)

Section ChartFacts.
Import JS Types Chart.

Lemma rows_from_items (index : nat) (items : list ChartItem) :
  map item (rows_from index items) = items.
Proof.
  revert index. induction items as [|it rest IH]; intros index; simpl.
  - reflexivity.
  - now rewrite IH.
Qed.

Lemma rows_from_marks (items : list ChartItem) (index i : nat) (row : LegendRow) :
  nth_error (rows_from index items) i = Some row ->
  mark row = fill (index + i).
Proof.
  revert index i. induction items as [|it rest IH]; intros index i; simpl.
  - destruct i; discriminate.
  - destruct i as [|i]; simpl.
    + intros [= <-]. simpl. now rewrite Nat.add_0_r.
    + intros H. apply IH in H. now rewrite Nat.add_succ_r.
Qed.

Lemma by_value_desc_total (a b : ChartItem) :
  by_value_desc a b <= 0 \/ by_value_desc b a <= 0.
Proof.
  unfold by_value_desc.
  destruct (Qlt_le_dec (value a) (value b)) as [H|H]; [right|left]; lra.
Qed.

Lemma by_value_desc_trans (a b c : ChartItem) :
  by_value_desc a b <= 0 -> by_value_desc b c <= 0 -> by_value_desc a c <= 0.
Proof. unfold by_value_desc. lra. Qed.

Lemma chartData_perm (summary : SpendingSummary) :
  Permutation (chartData summary)
              (map to_item (filter is_expense (by_category summary))).
Proof. apply sort_perm. Qed.

Lemma chartData_sorted (summary : SpendingSummary) :
  StronglySorted (fun a b => value b <= value a) (chartData summary).
Proof.
  pose proof (sort_sorted by_value_desc by_value_desc_total by_value_desc_trans
                (map to_item (filter is_expense (by_category summary)))) as H.
  unfold chartData. revert H.
  generalize (sort by_value_desc
                (map to_item (filter is_expense (by_category summary)))).
  intros l H. induction H as [|a l Hs IH Hall]; constructor.
  - exact IH.
  - rewrite Forall_forall in *. intros z Hz. specialize (Hall z Hz).
    unfold by_value_desc in Hall. lra.
Qed.
End ChartFacts.

(** C9.  For every spending summary, the chart data are exactly the
    [by_category] entries whose amount is strictly negative, each with the
    absolute value of its amount (and its name and icon), sorted by that value
    in descending order; the legend rows are the first five entries at most,
    and the note "+N more categories", N the number of entries beyond five,
    is shown exactly when there are more than five entries. *)
Theorem spending_chart_data_and_legend :
  forall summary : Types.SpendingSummary,
    let data := Chart.chartData summary in
    Permutation data
      (map Chart.to_item (filter Chart.is_expense (Types.by_category summary)))
    /\ (forall it, In it data <->
          exists entry, In entry (Types.by_category summary)
            /\ Types.amount (snd entry) < 0
            /\ it = Chart.mkChartItem (fst entry)
                      (Qabs (Types.amount (snd entry))) (Types.icon (snd entry)))
    /\ StronglySorted (fun a b => Chart.value b <= Chart.value a) data
    /\ map Chart.item (Chart.legend_rows summary) = firstn 5 data
    /\ (List.length (Chart.legend_rows summary) <= 5)%nat
    /\ ((5 < List.length data)%nat ->
          Chart.legend_note summary =
            Some (JS.lit "+" ++ JS.show_N (N.of_nat (List.length data - 5))
                    ++ JS.lit " more categories"))
    /\ ((List.length data <= 5)%nat -> Chart.legend_note summary = None).
Proof.
  intros summary data.
  assert (Hperm := chartData_perm summary). fold data in Hperm.
  split; [exact Hperm|].
  split.
  { intros it. split.
    - intros Hin. apply (Permutation_in _ Hperm) in Hin.
      apply in_map_iff in Hin. destruct Hin as [entry [<- Hin]].
      apply filter_In in Hin. destruct Hin as [Hin Hexp].
      exists entry. split; [exact Hin|]. split; [|reflexivity].
      apply Qltb_lt. exact Hexp.
    - intros [entry [Hin [Hneg ->]]].
      apply (Permutation_in _ (Permutation_sym Hperm)).
      apply in_map_iff. exists entry. split; [reflexivity|].
      apply filter_In. split; [exact Hin|]. apply Qltb_lt. exact Hneg. }
  split; [apply chartData_sorted|].
  split; [apply rows_from_items|].
  split.
  { rewrite <- (length_map Chart.item). unfold Chart.legend_rows.
    rewrite rows_from_items. rewrite length_firstn. apply Nat.le_min_l. }
  unfold Chart.legend_note. fold data.
  split; intros H.
  - apply Nat.ltb_lt in H. now rewrite H.
  - destruct (5 <? List.length data)%nat eqn:E; [|reflexivity].
    apply Nat.ltb_lt in E. lia.
Qed.

(** ** The API client *)

Section ClientFacts.
Import JS Client.

Lemma handleResponse_ok (response : Response) :
  ok response = true -> handleResponse response = json_body response.
Proof. unfold handleResponse. intros ->. reflexivity. Qed.

Lemma handleResponse_not_ok (response : Response) :
  ok response = false ->
  exists details,
    handleResponse response =
      Rejected (ApiError (lit "API Error: " ++ show_N (status response))
                         (status response) details)
    /\ (JSON_parse (body response) = None ->
        details = Val (JStr (body response)))
    /\ (JSON_parse (body response) = Some JNull ->
        details = Val (JStr (body response)))
    /\ (forall fields,
          JSON_parse (body response) = Some (JObj fields) ->
          details = if truthy (lookup (lit "detail") fields)
                    then lookup (lit "detail") fields
                    else lookup (lit "message") fields)
    /\ (forall parsed,
          JSON_parse (body response) = Some parsed ->
          parsed <> JNull -> (forall fields, parsed <> JObj fields) ->
          details = Undefined).
Proof.
  intros Hok. unfold handleResponse. rewrite Hok. simpl.
  unfold parse. destruct (JSON_parse (body response)) as [parsed|] eqn:Hp; simpl.
  - destruct parsed as [ |b|q|s|items|fields]; simpl.
    6: destruct (truthy (lookup (lit "detail") fields)) eqn:Ht; simpl.
    all: eexists; split; [reflexivity|].
    all: split; [discriminate|].
    all: split; [first [reflexivity | discriminate]|].
    all: split;
      [ intros fields' [= <-]; try rewrite Ht; reflexivity
      | intros p [= <-] Hnull Hobj;
        first [ reflexivity | now contradiction Hnull | now contradiction (Hobj fields) ] ].
  - eexists. split; [reflexivity|].
    split; [reflexivity|]. repeat split; discriminate.
Qed.
End ClientFacts.

(** C10 (as amended).  For every response: [handleResponse] returns a value
    only when [response.ok] is true, and that value is the parsed JSON body;
    for an ok response it returns the parsed body when the body is JSON and
    rejects with the parse error when it is not; for a non-ok response it
    throws an [ApiError] whose message is "API Error: " and the status, whose
    [status] is the response's status code, and whose [details] are the raw
    body text when the body is not JSON or is the JSON [null],
    [parsed.detail || parsed.message] (the [detail] member when it is truthy,
    else the [message] member) when the body is a JSON object, and
    [undefined] when it is any other JSON value. *)
Theorem handleResponse_settles :
  forall response : Client.Response,
    (forall v, Client.handleResponse response = JS.Resolved v ->
       Client.ok response = true
       /\ JS.JSON_parse (Client.body response) = Some v)
    /\ (Client.ok response = true ->
        (forall parsed, JS.JSON_parse (Client.body response) = Some parsed ->
           Client.handleResponse response = JS.Resolved parsed)
        /\ (JS.JSON_parse (Client.body response) = None ->
            Client.handleResponse response = JS.Rejected Client.SyntaxError))
    /\ (Client.ok response = false ->
        exists details,
          Client.handleResponse response =
            JS.Rejected
              (Client.ApiError
                 (JS.lit "API Error: " ++ JS.show_N (Client.status response))
                 (Client.status response) details)
          /\ (JS.JSON_parse (Client.body response) = None ->
              details = JS.Val (JS.JStr (Client.body response)))
          /\ (JS.JSON_parse (Client.body response) = Some JS.JNull ->
              details = JS.Val (JS.JStr (Client.body response)))
          /\ (forall fields,
                JS.JSON_parse (Client.body response) = Some (JS.JObj fields) ->
                details = if JS.truthy (JS.lookup (JS.lit "detail") fields)
                          then JS.lookup (JS.lit "detail") fields
                          else JS.lookup (JS.lit "message") fields)
          /\ (forall parsed,
                JS.JSON_parse (Client.body response) = Some parsed ->
                parsed <> JS.JNull -> (forall fields, parsed <> JS.JObj fields) ->
                details = JS.Undefined)).
Proof.
  intros response. split; [|split].
  - intros v Hv. destruct (Client.ok response) eqn:Hok.
    + split; [reflexivity|]. rewrite handleResponse_ok in Hv by exact Hok.
      unfold Client.json_body in Hv.
      destruct (JS.JSON_parse (Client.body response)); [|discriminate].
      now injection Hv as ->.
    + destruct (handleResponse_not_ok response Hok) as [d [Hd _]]. congruence.
  - intros Hok. rewrite handleResponse_ok by exact Hok. unfold Client.json_body.
    split.
    + intros parsed ->. reflexivity.
    + intros ->. reflexivity.
  - apply handleResponse_not_ok.
Qed.

(** The claim as first stated fails on two kinds of response.  A 204 with an
    empty body is ok, and [handleResponse] rejects instead of returning; and a
    500 whose body is the JSON text null parses, yet [details] is the raw
    text, since reading a property of [null] throws inside the [try]. *)
Lemma handleResponse_ok_body_not_json :
  Client.ok (Client.mkResponse 204 []) = true
  /\ Client.handleResponse (Client.mkResponse 204 []) = JS.Rejected Client.SyntaxError
  /\ JS.JSON_parse (JS.lit "null") = Some JS.JNull
  /\ Client.handleResponse (Client.mkResponse 500 (JS.lit "null")) =
       JS.Rejected (Client.ApiError (JS.lit "API Error: 500") 500
                      (JS.Val (JS.JStr (JS.lit "null")))).
Proof. repeat split. Qed.

Lemma handleResponse_settles_witness :
  exists details,
    Client.handleResponse (Client.mkResponse 404 not_found_body) =
      JS.Rejected (Client.ApiError (JS.lit "API Error: 404") 404 details)
    /\ details = JS.Val (JS.JStr (JS.lit "Session not found")).
Proof.
  destruct (handleResponse_settles (Client.mkResponse 404 not_found_body))
    as [_ [_ H]].
  destruct (H eq_refl) as [details [Hd [_ [_ [Hobj _]]]]].
  exists details. split; [exact Hd|].
  exact (Hobj [(JS.lit "detail", JS.JStr (JS.lit "Session not found"))] eq_refl).
Defined.

(** ** The client flow: upload, then analyze, then dashboard *)

Section FlowFacts.
Import JS Client.

Lemma split_at_nil (E : Type) (y : E) (l1 l2 : list E) :
  [] = l1 ++ y :: l2 -> False.
Proof. destruct l1; discriminate. Qed.

Lemma split_at_cons (E : Type) (x y : E) (tr l1 l2 : list E) :
  x :: tr = l1 ++ y :: l2 ->
  (l1 = [] /\ x = y /\ l2 = tr)
  \/ (exists l1', l1 = x :: l1' /\ tr = l1' ++ y :: l2).
Proof.
  destruct l1 as [|x' l1']; simpl; intros [= -> ->].
  - left. auto.
  - right. exists l1'. auto.
Qed.










End FlowFacts.

(** ** The models on sample inputs *)

Example parse_nested_json :
  JS.JSON_parse (JS.lit " [1, 2.5e1, -0.25, true, null, [], {}] ") =
    Some (JS.JArr [JS.JNum 1; JS.JNum 25; JS.JNum (- (25 # 100)); JS.JBool true;
                   JS.JNull; JS.JArr []; JS.JObj []]).
Proof. reflexivity. Qed.

Example parse_rejects_malformed :
  JS.JSON_parse (JS.lit "[1,]") = None
  /\ JS.JSON_parse (JS.lit "01") = None
  /\ JS.JSON_parse (JS.lit "{") = None
  /\ JS.JSON_parse (JS.lit "nul") = None
  /\ JS.JSON_parse (JS.lit "1 2") = None.
Proof. repeat split. Qed.

Example parse_unicode_escape :
  JS.JSON_parse ([JS.c_quote] ++ JS.lit "\u0041\u00e9\n" ++ [JS.c_quote]) =
    Some (JS.JStr [65%N; 233%N; 10%N]).
Proof. reflexivity. Qed.

Example last_duplicate_wins :
  JS.lookup (JS.lit "a") [(JS.lit "a", JS.JNum 1); (JS.lit "a", JS.JNum 2)] =
    JS.Val (JS.JNum 2).
Proof. reflexivity. Qed.

Example handleResponse_returns_session :
  Client.handleResponse (Client.mkResponse 200 session_body) =
    JS.Resolved (JS.JObj [(JS.lit "session_id", JS.JStr (JS.lit "abc-123"))]).
Proof. reflexivity. Qed.

Example handleResponse_raw_text_details :
  Client.handleResponse (Client.mkResponse 503 (JS.lit "Service Unavailable")) =
    JS.Rejected (Client.ApiError (JS.lit "API Error: 503") 503
                   (JS.Val (JS.JStr (JS.lit "Service Unavailable")))).
Proof. reflexivity. Qed.

Example full_flow_trace :
  Client.trace always_ok (Client.uploadAndAnalyze "transactions.csv"%string true) =
    let session := JS.Val (JS.JStr (JS.lit "abc-123")) in
    let answer := JS.Resolved (Client.mkResponse 200 session_body) in
    [ Client.EvProgress "Uploading file...";
      Client.EvRequest (Client.upload_request "transactions.csv"%string);
      Client.EvSettled (Client.upload_request "transactions.csv"%string) answer;
      Client.EvProgress "Analyzing transactions...";
      Client.EvRequest (Client.analyze_request session);
      Client.EvSettled (Client.analyze_request session) answer;
      Client.EvProgress "Loading dashboard...";
      Client.EvRequest (Client.dashboard_request session);
      Client.EvSettled (Client.dashboard_request session) answer ].
Proof. reflexivity. Qed.

Example failed_upload_stops_the_flow :
  Client.trace always_unavailable
               (Client.uploadAndAnalyze "transactions.csv"%string false) =
    [ Client.EvRequest (Client.upload_request "transactions.csv"%string);
      Client.EvSettled (Client.upload_request "transactions.csv"%string)
        (JS.Resolved (Client.mkResponse 503 (JS.lit "Service Unavailable"))) ]
  /\ Client.result always_unavailable
                   (Client.uploadAndAnalyze "transactions.csv"%string false) =
       JS.Rejected (Client.ApiError (JS.lit "API Error: 503") 503
                      (JS.Val (JS.JStr (JS.lit "Service Unavailable")))).
Proof. split; reflexivity. Qed.

Example sample_chart_data :
  map (fun it => (Chart.name it, Chart.value it)) (Chart.chartData sample_summary) =
    [ (JS.lit "Housing", 1500 # 1); (JS.lit "Shopping", 450 # 1);
      (JS.lit "Dining", 300 # 1); (JS.lit "Groceries", 200 # 1);
      (JS.lit "Transport", 12401 # 100); (JS.lit "Streaming", 1599 # 100) ]
  /\ map (fun row => Chart.name (Chart.item row)) (Chart.legend_rows sample_summary) =
       [ JS.lit "Housing"; JS.lit "Shopping"; JS.lit "Dining"; JS.lit "Groceries";
         JS.lit "Transport" ]
  /\ Chart.legend_note sample_summary = Some (JS.lit "+1 more categories").
Proof. repeat split. Qed.

(* ================================================================== *)
(** * Further properties of the client flows *)
(* ================================================================== *)

Section FlowOutcomes.
Import JS Client Flow.

(** [handleResponse] returns exactly on a 2xx whose body is JSON. *)
Lemma handleResponse_resolved (response : Response) (v : json) :
  handleResponse response = Resolved v <->
  ok response = true /\ JSON_parse (body response) = Some v.
Proof.
  destruct (ok response) eqn:Hok.
  - rewrite (handleResponse_ok _ Hok). unfold json_body.
    destruct (JSON_parse (body response)); split.
    + intros [= ->]. auto.
    + intros [_ [= ->]]. reflexivity.
    + discriminate.
    + intros [_ H]. discriminate.
  - destruct (handleResponse_not_ok _ Hok) as [d [Hd _]]. rewrite Hd.
    split; [discriminate | intros [H _]; discriminate].
Qed.

(** One step of a run: the next answer of the network, the next verdict of
    [handleResponse], or the next read of the session id. *)
Ltac flow_step :=
  match goal with
  | |- context [match ?net ?tr ?r with Resolved _ => _ | Rejected _ => _ end] =>
      destruct (net tr r) eqn:?; simpl
  | |- context [match handleResponse ?r with Resolved _ => _ | Rejected _ => _ end] =>
      destruct (handleResponse r) eqn:?; simpl
  | |- context [match get ?o ?k with Resolved _ => _ | Rejected _ => _ end] =>
      destruct (get o k) eqn:?; simpl
  end.

Ltac unfold_flow :=
  unfold result, trace, program, uploadAndAnalyze, loadSampleAndAnalyze,
    uploadCSV, useSampleData, analyzeSession, getDashboard, fetch, progress.

Ltac run_cases f onProgress :=
  unfold_flow; destruct f, onProgress; simpl; repeat flow_step.

(** X1.  A flow ([uploadAndAnalyze] or [loadSampleAndAnalyze]) resolves
    only after exactly three requests were made and answered: the upload (or
    sample) request, the analyze request and the dashboard request for the
    session the first answer names, each answered by a response that
    [handleResponse] accepts; the value it resolves with is the parsed body
    of the dashboard answer. *)
Theorem flow_resolves_after_three_accepted_answers
        (net : network) (f : flow) (onProgress : bool) (v : json) :
  result net (program f onProgress) = Resolved v ->
  exists r1 r2 r3 uploadResult analysis sessionId,
    settlements_of (trace net (program f onProgress)) =
      [ (first_request f, Resolved r1);
        (analyze_request sessionId, Resolved r2);
        (dashboard_request sessionId, Resolved r3) ]
    /\ requests_of (trace net (program f onProgress)) =
         [ first_request f; analyze_request sessionId;
           dashboard_request sessionId ]
    /\ handleResponse r1 = Resolved uploadResult
    /\ get uploadResult (lit "session_id") = Resolved sessionId
    /\ handleResponse r2 = Resolved analysis
    /\ ok r3 = true /\ JSON_parse (body r3) = Some v.
Proof.
  run_cases f onProgress; intros Hv; try discriminate Hv.
  all: apply handleResponse_resolved in Hv; destruct Hv as [Hok Hbody].
  all: do 6 eexists; repeat split; try reflexivity; eassumption.
Qed.





(** X4.  With a progress callback, a flow reports its steps in the fixed
    order (uploading or loading the sample, analyzing, loading the dashboard),
    one right before each request and never two for one request; it reports
    at least the first step, and stops reporting where the flow stops.
    Without a callback nothing is reported. *)
Theorem flow_announces_each_request (net : network) (f : flow) :
  announced (trace net (program f true))
  /\ (exists n, (1 <= n)%nat
        /\ progress_of (trace net (program f true)) =
             firstn n [ first_step f; "Analyzing transactions...";
                        "Loading dashboard..." ]%string)
  /\ progress_of (trace net (program f false)) = [].
Proof.
  split; [|split].
  - unfold_flow; destruct f; simpl; repeat flow_step; repeat constructor.
  - unfold_flow; destruct f; simpl; repeat flow_step.
    all: first [ exists 1%nat; split; [lia | reflexivity]
               | exists 2%nat; split; [lia | reflexivity]
               | exists 3%nat; split; [lia | reflexivity] ].
  - unfold_flow; destruct f; simpl; repeat flow_step; reflexivity.
Qed.


End FlowOutcomes.

Lemma flow_resolves_after_three_accepted_answers_witness :
  exists r1 r2 r3 uploadResult analysis sessionId,
    Flow.settlements_of
      (Client.trace always_ok (Flow.program (Flow.Upload "transactions.csv"%string) true)) =
      [ (Client.upload_request "transactions.csv"%string, JS.Resolved r1);
        (Client.analyze_request sessionId, JS.Resolved r2);
        (Client.dashboard_request sessionId, JS.Resolved r3) ]
    /\ Flow.requests_of
         (Client.trace always_ok (Flow.program (Flow.Upload "transactions.csv"%string) true)) =
         [ Client.upload_request "transactions.csv"%string;
           Client.analyze_request sessionId; Client.dashboard_request sessionId ]
    /\ Client.handleResponse r1 = JS.Resolved uploadResult
    /\ Client.get uploadResult (JS.lit "session_id") = JS.Resolved sessionId
    /\ Client.handleResponse r2 = JS.Resolved analysis
    /\ Client.ok r3 = true
    /\ JS.JSON_parse (Client.body r3) =
         Some (JS.JObj [(JS.lit "session_id", JS.JStr (JS.lit "abc-123"))]).
Proof.
  apply (flow_resolves_after_three_accepted_answers always_ok
           (Flow.Upload "transactions.csv"%string) true).
  reflexivity.
Defined.



(* ================================================================== *)
(** * Further properties of the spending chart *)
(* ================================================================== *)

Section PieFacts.
Import JS Types Chart Pie.

Lemma palette_NoDup : NoDup MONOCHROME_COLORS.
Proof.
  unfold MONOCHROME_COLORS.
  repeat (constructor; [simpl; intuition discriminate|]). constructor.
Qed.

Lemma fill_in_palette (index : nat) : In (fill index) MONOCHROME_COLORS.
Proof.
  unfold fill. apply nth_In. apply Nat.mod_upper_bound. discriminate.
Qed.

Lemma fill_eq (i j : nat) : fill i = fill j <-> i mod 7 = j mod 7.
Proof.
  unfold fill. change (List.length MONOCHROME_COLORS) with 7%nat.
  split; [|now intros ->].
  intros H.
  apply (proj1 (NoDup_nth MONOCHROME_COLORS ""%string) palette_NoDup);
    try exact H; apply Nat.mod_upper_bound; discriminate.
Qed.

Lemma nth_error_rows_from (items : list ChartItem) (index i : nat) (row : LegendRow) :
  nth_error (rows_from index items) i = Some row ->
  mark row = fill (index + i) /\ nth_error items i = Some (item row).
Proof.
  revert index i. induction items as [|it rest IH]; intros index i; simpl.
  - destruct i; discriminate.
  - destruct i as [|i]; simpl.
    + intros [= <-]. simpl. now rewrite Nat.add_0_r.
    + intros H. apply IH in H. now rewrite Nat.add_succ_r.
Qed.

Lemma marks_of_rows (items : list ChartItem) (index : nat) :
  map mark (rows_from index items) = map fill (seq index (List.length items)).
Proof.
  revert index. induction items as [|it rest IH]; intros index; simpl.
  - reflexivity.
  - now rewrite IH.
Qed.

Lemma nth_error_fills (n i : nat) (f : string) :
  nth_error (map fill (seq 0 n)) i = Some f -> f = fill i /\ (i < n)%nat.
Proof.
  intros H.
  assert (Hi : (i < n)%nat).
  { assert (Hl : (i < List.length (map fill (seq 0 n)))%nat).
    { apply nth_error_Some. rewrite H. discriminate. }
    now rewrite length_map, length_seq in Hl. }
  split; [|exact Hi].
  rewrite nth_error_map in H.
  rewrite (nth_error_nth' _ 0%nat) in H by (rewrite length_seq; exact Hi).
  rewrite seq_nth in H by exact Hi. simpl in H. now injection H as <-.
Qed.

Lemma fills_NoDup (n : nat) : (n <= 7)%nat -> NoDup (map fill (seq 0 n)).
Proof.
  intros Hn. apply NoDup_nth_error. intros i j Hi Hij.
  rewrite length_map, length_seq in Hi.
  destruct (nth_error (map fill (seq 0 n)) i) as [f|] eqn:Hf.
  - symmetry in Hij.
    apply nth_error_fills in Hf, Hij.
    destruct Hf as [-> _], Hij as [Hij Hj].
    apply fill_eq in Hij. rewrite !Nat.mod_small in Hij by lia. exact Hij.
  - apply nth_error_None in Hf. rewrite length_map, length_seq in Hf. lia.
Qed.

(** X5.  The legend agrees with the pie.  The legend row at position [i]
    names the chart item at position [i] and carries the fill of the pie's
    cell [i]; the marks of the legend rows are pairwise different; two cells
    of the pie have the same fill exactly when their positions agree modulo
    7, so a chart with more than seven expense categories repeats a colour;
    and every fill is a colour of the palette. *)
Theorem legend_marks_match_pie_cells (summary : SpendingSummary) :
  (forall i row,
      nth_error (legend_rows summary) i = Some row ->
      nth_error (cell_fills summary) i = Some (mark row)
      /\ nth_error (chartData summary) i = Some (item row))
  /\ NoDup (map mark (legend_rows summary))
  /\ (forall i j fi fj,
        nth_error (cell_fills summary) i = Some fi ->
        nth_error (cell_fills summary) j = Some fj ->
        (fi = fj <-> i mod 7 = j mod 7))
  /\ Forall (fun f => In f MONOCHROME_COLORS) (cell_fills summary).
Proof.
  assert (Hcell : forall i f, nth_error (cell_fills summary) i = Some f ->
                              f = fill i).
  { unfold cell_fills. intros i f H. now apply nth_error_fills in H. }
  split; [|split; [|split]].
  - intros i row Hrow. unfold legend_rows in Hrow.
    apply nth_error_rows_from in Hrow. destruct Hrow as [Hmark Hitem].
    simpl in Hmark.
    assert (Hdata : nth_error (chartData summary) i = Some (item row)).
    { assert (Hi : (i < 5)%nat).
      { assert (H : (i < List.length (firstn 5 (chartData summary)))%nat).
        { apply nth_error_Some. rewrite Hitem. discriminate. }
        rewrite length_firstn in H. lia. }
      rewrite <- Hitem. rewrite nth_error_firstn.
      apply Nat.ltb_lt in Hi. now rewrite Hi. }
    split; [|exact Hdata].
    unfold cell_fills. rewrite nth_error_map.
    assert (Hlen : (i < List.length (chartData summary))%nat).
    { apply nth_error_Some. rewrite Hdata. discriminate. }
    rewrite (nth_error_nth' _ 0%nat) by (rewrite length_seq; exact Hlen).
    rewrite seq_nth by exact Hlen. simpl. now rewrite Hmark.
  - unfold legend_rows. rewrite marks_of_rows. apply fills_NoDup.
    rewrite length_firstn. lia.
  - intros i j fi fj Hi Hj. apply Hcell in Hi, Hj. subst. apply fill_eq.
  - apply Forall_forall. intros f Hf. apply In_nth_error in Hf.
    destruct Hf as [i Hi]. apply Hcell in Hi. subst. apply fill_in_palette.
Qed.






Lemma insert_keeps_ties (v : Q) (x : ChartItem) (l : list ChartItem) :
  filter (same_value v) (insert by_value_desc x l) =
  filter (same_value v) (x :: l).
Proof.
  induction l as [|y l IH]; [reflexivity|].
  cbn [insert].
  destruct (Qle_bool (by_value_desc x y) 0) eqn:E; [reflexivity|].
  assert (Hlt : value x < value y).
  { apply Qnot_le_lt. intros Hle. unfold by_value_desc in E.
    assert (Hb : Qle_bool (value y - value x) 0 = true)
      by (apply Qle_bool_iff; lra).
    congruence. }
  cbn [filter] in *. rewrite IH.
  destruct (same_value v x) eqn:Hx; [|reflexivity].
  assert (Hy : same_value v y = false).
  { unfold same_value in *. apply Qeq_bool_iff in Hx.
    destruct (Qeq_bool (value y) v) eqn:Hyv; [|reflexivity].
    apply Qeq_bool_iff in Hyv. lra. }
  now rewrite Hy.
Qed.

(** X7.  The sort keeps ties in order.  The chart items of any one value
    appear in [chartData] in the order [Object.entries] lists their
    categories in [by_category]: sorting moves an item only past items of a
    different value. *)
Theorem chart_ties_keep_entry_order (summary : SpendingSummary) (v : Q) :
  filter (same_value v) (chartData summary) =
  filter (same_value v)
         (map to_item (filter is_expense (by_category summary))).
Proof.
  unfold chartData.
  induction (map to_item (filter is_expense (by_category summary)))
    as [|x l IH]; [reflexivity|].
  cbn [sort fold_right]. fold (sort by_value_desc l).
  rewrite insert_keeps_ties. cbn [filter]. now rewrite IH.
Qed.

End PieFacts.


(* ================================================================== *)
(** * Properties of the application *)
(* ================================================================== *)

Section AppFacts.
Import JS Client Flow App.
Variable engine_message : Client.error -> jstring.

Lemma last_of_nonempty (A : Type) (x : A) (l : list A) (d d' : A) :
  last (x :: l) d = last (x :: l) d'.
Proof.
  revert x. induction l as [|y l IH]; intros x; [reflexivity|].
  change (last (y :: l) d = last (y :: l) d'). apply IH.
Qed.

Lemma report_keeps (tr : list event) (st : State) :
  fold_left report tr st =
  setLoadingStep (last (progress_of tr) (loadingStep st)) st.
Proof.
  revert st. induction tr as [|ev tr IH]; intros st.
  - destruct st; reflexivity.
  - cbn [fold_left]. rewrite IH. destruct ev as [step| |]; simpl;
      try reflexivity.
    destruct (progress_of tr) as [|x l]; [reflexivity|].
    unfold setLoadingStep. simpl. f_equal. apply last_of_nonempty.
Qed.

(** The state a handler ends in. *)
Lemma run_handler_ends (net : network) (f : flow) (st : State) :
  run_handler engine_message net f st =
  match result net (program f true) with
  | Resolved data => mkState dashboard data false JNull ""
  | Rejected err =>
      mkState upload (dashboardData st) false (errorMessage engine_message err) ""
  end.
Proof.
  unfold run_handler, under_way. rewrite report_keeps.
  destruct (result net (program f true)); reflexivity.
Qed.

(** The handlers of the upload screen are offered in the upload view only. *)
Lemma upload_handlers_offered (st : State) (a : action) :
  offered (render st) a = true -> a <> Reset -> view st = upload.
Proof.
  unfold render. intros H Ha.
  destruct (view st); [reflexivity| |].
  - destruct a; discriminate H.
  - destruct (truthy _); destruct a; try discriminate H; congruence.
Qed.

(** X8.  Whatever the user does and whatever the network answers, the
    application comes to rest in a consistent state: it is not loading and
    has no loading step, its view is not the analyzing view, the dashboard
    view carries no error, and the upload view carries no dashboard data. *)
Theorem app_rests_in_a_consistent_state (st : State) :
  reachable engine_message st ->
  isLoading st = false
  /\ loadingStep st = ""%string
  /\ view st <> analyzing
  /\ (view st = dashboard -> error st = JNull)
  /\ (view st = upload -> dashboardData st = JNull).
Proof.
  induction 1 as [|st a Hst IH Hoffered].
  - repeat split; simpl; congruence.
  - destruct IH as [Hload [Hstep [Hview [Hdash Hup]]]].
    assert (Hflow : forall net f,
               view st = upload ->
               let st' := run_handler engine_message net f st in
               isLoading st' = false
               /\ loadingStep st' = ""%string
               /\ view st' <> analyzing
               /\ (view st' = dashboard -> error st' = JNull)
               /\ (view st' = upload -> dashboardData st' = JNull)).
    { intros net f Hv st'. subst st'. rewrite run_handler_ends.
      destruct (result net (program f true)); simpl;
        repeat split; try congruence.
      intros _. now apply Hup. }
    destruct a as [net file|net|].
    + apply (Hflow net (Upload file)).
      now apply (upload_handlers_offered _ Hoffered).
    + apply (Hflow net Sample).
      now apply (upload_handlers_offered _ Hoffered).
    + unfold act, handleReset. simpl.
      repeat split; try assumption; congruence.
Qed.

Ltac app_flow_step :=
  match goal with
  | |- context [match ?net ?tr ?r with Resolved _ => _ | Rejected _ => _ end] =>
      destruct (net tr r) eqn:?; simpl
  | |- context [match handleResponse ?r with Resolved _ => _ | Rejected _ => _ end] =>
      destruct (handleResponse r) eqn:?; simpl
  | |- context [match get ?o ?k with Resolved _ => _ | Rejected _ => _ end] =>
      destruct (get o k) eqn:?; simpl
  end.

Ltac unfold_app_flow :=
  unfold result, trace, program, uploadAndAnalyze, loadSampleAndAnalyze,
    uploadCSV, useSampleData, analyzeSession, getDashboard, fetch, progress.

(** A flow whose first request is refused makes no other request and
    rejects with the [ApiError] of that answer. *)
Lemma refused_first_request (net : network) (f : flow) (response : Response) :
  (forall history, net history (first_request f) = Resolved response) ->
  ok response = false ->
  requests_of (trace net (program f true)) = [first_request f]
  /\ result net (program f true) = handleResponse response.
Proof.
  intros Hnet Hok.
  destruct (handleResponse_not_ok response Hok) as [d [Hd _]].
  unfold_app_flow. destruct f; simpl in *.
  all: rewrite Hnet; simpl; rewrite Hd; simpl; auto.
Qed.

(** X9.  When the first request of a flow (the upload, or the sample) is
    answered with a status outside 200..299, the handler makes no further
    request and leaves the application on the upload screen, not loading,
    with an error the user can see (a truthy value): the [detail] of the
    answer's JSON object when it has a truthy one, the raw body when the body
    is not JSON and not empty, and the text "API Error: " followed by the
    status when the body is empty. *)
Theorem refused_upload_reaches_the_user
        (net : network) (f : flow) (st : State) (response : Response) :
  (forall history, net history (first_request f) = Resolved response) ->
  ok response = false ->
  let st' := run_handler engine_message net f st in
  requests_of (trace net (program f true)) = [first_request f]
  /\ render st' = UploadScreen false (error st')
  /\ truthy (Val (error st')) = true
  /\ (forall fields,
        JSON_parse (body response) = Some (JObj fields) ->
        truthy (lookup (lit "detail") fields) = true ->
        Val (error st') = lookup (lit "detail") fields)
  /\ (JSON_parse (body response) = None -> body response <> [] ->
      error st' = JStr (body response))
  /\ (body response = [] ->
      error st' = JStr (lit "API Error: " ++ show_N (status response))).
Proof.
  intros Hnet Hok st'.
  destruct (refused_first_request net f Hnet Hok) as [Hreq Hres].
  destruct (handleResponse_not_ok response Hok)
    as [d [Hd [Hnone [_ [Hobj _]]]]].
  subst st'. rewrite run_handler_ends, Hres, Hd.
  set (m := lit "API Error: " ++ show_N (status response)).
  assert (Hm : truthy (Val (JStr m)) = true) by reflexivity.
  assert (He : errorMessage engine_message (ApiError m (status response) d) =
               match d with
               | Val j => if truthy (Val j) then j else JStr m
               | Undefined => JStr m
               end) by reflexivity.
  unfold render. cbn [view isLoading error]. rewrite He. clear He.
  split; [exact Hreq|]. split; [reflexivity|].
  split; [|split; [|split]].
  - destruct d as [|j]; [exact Hm|].
    destruct (truthy (Val j)) eqn:Ht; [exact Ht | exact Hm].
  - intros fields Hp Ht. rewrite (Hobj fields Hp), Ht.
    destruct (lookup (lit "detail") fields) as [|j]; [discriminate Ht|].
    now rewrite Ht.
  - intros Hp Hbody. rewrite (Hnone Hp).
    destruct (body response); [congruence | reflexivity].
  - intros Hbody.
    assert (Hp : JSON_parse (body response) = None) by now rewrite Hbody.
    rewrite (Hnone Hp), Hbody. reflexivity.
Qed.

(** X10.  The dashboard is shown only with data.  After a flow resolves,
    the application shows the dashboard when the value is truthy; when the
    dashboard answer was a falsy JSON value ([null], [false], [0] or the empty
    string) it shows the analyzing screen with the text "Loading
    dashboard...", although nothing is loading, and on that screen no handler
    is offered: neither an upload nor the reset can be started. *)
Theorem falsy_dashboard_leaves_the_loading_screen
        (net : network) (f : flow) (st : State) (data : json) :
  result net (program f true) = Resolved data ->
  let st' := run_handler engine_message net f st in
  isLoading st' = false
  /\ render st' = (if truthy (Val data) then DashboardScreen data
                   else AnalyzingScreen "Loading dashboard...")
  /\ (truthy (Val data) = false ->
      forall a, offered (render st') a = false).
Proof.
  intros Hres st'. subst st'. rewrite run_handler_ends, Hres.
  unfold render. simpl.
  split; [reflexivity|]. split; [reflexivity|].
  intros ->. intros a. destruct a; reflexivity.
Qed.

(** X11.  The four step indicators of the analyzing screen are lit
    together, and exactly while the analyze request is pending: at the moment
    a flow started by a handler makes a request, the indicators are lit if and
    only if that request is the analyze request. *)
Theorem step_indicators_lit_during_analysis
        (net : network) (f : flow) (st : State)
        (seen : list event) (r : request) (rest : list event) :
  trace net (program f true) = seen ++ EvRequest r :: rest ->
  render (under_way st seen) = AnalyzingScreen (loadingStep (under_way st seen))
  /\ (indicators_lit (loadingStep (under_way st seen)) = true <->
      exists sessionId, r = analyze_request sessionId).
Proof.
  intros H. split.
  - unfold under_way. rewrite report_keeps. reflexivity.
  - revert H. unfold under_way. rewrite report_keeps. simpl.
    unfold_app_flow. destruct f; simpl; repeat app_flow_step; intros H.
    all: repeat (let l := fresh "l" in
                 let Hx := fresh "Hx" in
                 apply split_at_cons in H;
                 destruct H as [[-> [Hx ->]] | [l [-> H]]];
                 [ first [ discriminate Hx
                         | injection Hx as <-; simpl;
                           first [ split; [intros _; eexists; reflexivity
                                          | intros _; reflexivity]
                                 | split; [intros Hlit; discriminate Hlit
                                          | intros [sid Hsid]; discriminate Hsid] ] ]
                 | ]).
    all: apply split_at_nil in H; contradiction.
Qed.

End AppFacts.

Lemma app_rests_in_a_consistent_state_witness :
  let st := App.act plain_engine App.initial
                    (App.FileUpload always_ok "transactions.csv"%string) in
  App.isLoading st = false
  /\ App.loadingStep st = ""%string
  /\ App.view st <> App.analyzing
  /\ (App.view st = App.dashboard -> App.error st = JS.JNull)
  /\ (App.view st = App.upload -> App.dashboardData st = JS.JNull).
Proof.
  apply (app_rests_in_a_consistent_state (engine_message := plain_engine)).
  apply App.reachable_act; [apply App.reachable_initial | reflexivity].
Defined.

Lemma refused_upload_reaches_the_user_witness :
  App.error (App.run_handler plain_engine always_unavailable Flow.Sample App.initial)
  = JS.JStr (JS.lit "Service Unavailable").
Proof.
  destruct (@refused_upload_reaches_the_user plain_engine always_unavailable
              Flow.Sample App.initial
              (Client.mkResponse 503 (JS.lit "Service Unavailable"))
              (fun _ => eq_refl) eq_refl)
    as [_ [_ [_ [_ [Hraw _]]]]].
  apply Hraw; [reflexivity | discriminate].
Defined.

Lemma falsy_dashboard_leaves_the_loading_screen_witness :
  let st := App.run_handler plain_engine null_dashboard
              (Flow.Upload "transactions.csv"%string) App.initial in
  App.isLoading st = false
  /\ App.render st = App.AnalyzingScreen "Loading dashboard..."
  /\ (forall a, App.offered (App.render st) a = false).
Proof.
  destruct (@falsy_dashboard_leaves_the_loading_screen plain_engine null_dashboard
              (Flow.Upload "transactions.csv"%string) App.initial
              JS.JNull eq_refl)
    as [H1 [H2 H3]].
  split; [exact H1|]. split; [exact H2|]. apply H3. reflexivity.
Defined.

Lemma step_indicators_lit_during_analysis_witness :
  let tr := Client.trace always_ok
              (Flow.program (Flow.Upload "transactions.csv"%string) true) in
  App.indicators_lit
    (App.loadingStep (App.under_way App.initial (firstn 4 tr))) = true.
Proof.
  intros tr.
  destruct (@step_indicators_lit_during_analysis always_ok
              (Flow.Upload "transactions.csv"%string) App.initial
              (firstn 4 tr)
              (Client.analyze_request (JS.Val (JS.JStr (JS.lit "abc-123"))))
              (skipn 5 tr) eq_refl)
    as [_ H].
  apply H. eexists. reflexivity.
Defined.

(* ================================================================== *)
(** ** The chat requests *)
(* ================================================================== *)

Section ChatFacts.
Import JS Chat.

Lemma hexval_hexdigit (d : N) : (d < 16)%N -> hexval (hexdigit d) = Some d.
Proof.
  intros H.
  assert (Hc : In d (map N.of_nat (seq 0 16))).
  { apply in_map_iff. exists (N.to_nat d). split; [lia|]. apply in_seq. lia. }
  simpl in Hc. repeat (destruct Hc as [<- | Hc]; [reflexivity|]). destruct Hc.
Qed.

Lemma lex_UnicodeEscape (c : N) buf acc rest :
  (c < 65536)%N ->
  lex (LStr buf) acc (UnicodeEscape c ++ rest) = lex (LStr (c :: buf)) acc rest.
Proof.
  intros Hc. unfold UnicodeEscape. cbn [app lex].
  change (c_backslash =? c_quote)%N with false.
  change (c_backslash =? c_backslash)%N with true.
  change (ch "u" =? ch "u")%N with true. cbv iota.
  rewrite !hexval_hexdigit.
  - cbv zeta. do 2 f_equal. f_equal.
    zify. Z.to_euclidean_division_equations. lia.
  - apply N.mod_lt; lia.
  - apply N.mod_lt; lia.
  - apply N.mod_lt; lia.
  - apply N.Div0.div_lt_upper_bound; lia.
Qed.

Lemma short_escape_Some (c e : N) :
  short_escape c = Some e ->
  (e =? ch "u")%N = false /\ unescape e = Some c.
Proof.
  unfold short_escape.
  repeat match goal with
  | |- context [(c =? ?k)%N] =>
      destruct (N.eqb_spec c k) as [-> | ?];
      [intros [= <-]; split; reflexivity|]
  end.
  discriminate.
Qed.

Lemma short_escape_None (c : N) :
  short_escape c = None ->
  (c =? c_quote)%N = false /\ (c =? c_backslash)%N = false.
Proof.
  unfold short_escape.
  repeat match goal with
  | |- context [if (c =? ?k)%N then _ else _] =>
      destruct (N.eqb_spec c k) as [-> | ?]; [discriminate|]
  end.
  intros _. split; reflexivity.
Qed.

Lemma lex_plain (c : N) buf acc rest :
  (c =? c_quote)%N = false -> (c =? c_backslash)%N = false ->
  (c <? 32)%N = false ->
  lex (LStr buf) acc (c :: rest) = lex (LStr (c :: buf)) acc rest.
Proof. intros H1 H2 H3. cbn [lex]. now rewrite H1, H2, H3. Qed.

Lemma lex_short (c e : N) buf acc rest :
  short_escape c = Some e ->
  lex (LStr buf) acc (c_backslash :: e :: rest) = lex (LStr (c :: buf)) acc rest.
Proof.
  intros H. apply short_escape_Some in H. destruct H as [Hu He].
  cbn [lex].
  change (c_backslash =? c_quote)%N with false.
  change (c_backslash =? c_backslash)%N with true. cbv iota.
  now rewrite Hu, He.
Qed.

(** Inside a string the lexer reads the quoted characters back as the
    string's code units. *)
Lemma lex_quote_units (n : nat) :
  forall s, (List.length s <= n)%nat -> utf16 s ->
  forall buf acc rest,
    lex (LStr buf) acc (quote_units s ++ rest)
    = lex (LStr (rev s ++ buf)) acc rest.
Proof.
  induction n as [|n IH]; intros s Hn Hs buf acc rest.
  - destruct s; [reflexivity | simpl in Hn; lia].
  - destruct s as [|c r]; [reflexivity|].
    simpl in Hn. inversion Hs as [|? ? Hc Hr]; subst.
    assert (Hrev : forall b, rev (c :: r) ++ b = rev r ++ c :: b).
    { intros b. simpl. now rewrite <- app_assoc. }
    rewrite Hrev.
    assert (Hesc : lex (LStr buf) acc ((UnicodeEscape c ++ quote_units r) ++ rest)
                   = lex (LStr (rev r ++ c :: buf)) acc rest).
    { rewrite <- app_assoc, lex_UnicodeEscape by assumption.
      apply IH; [lia | assumption]. }
    cbn [quote_units].
    destruct (short_escape c) as [e|] eqn:He.
    + cbn [app]. rewrite (@lex_short c e _ _ _ He). apply IH; [lia | assumption].
    + destruct (short_escape_None _ He) as [Hq Hb].
      destruct (c <? 32)%N eqn:Hlow; [exact Hesc|].
      destruct (is_leading_surrogate c) eqn:Hlead.
      * destruct r as [|d r'].
        { rewrite lex_UnicodeEscape by assumption. reflexivity. }
        destruct (is_trailing_surrogate d) eqn:Htrail; [|exact Hesc].
        cbn [app]. rewrite lex_plain by assumption.
        unfold is_trailing_surrogate in Htrail.
        apply andb_true_iff in Htrail. destruct Htrail as [Hd1 Hd2].
        apply N.leb_le in Hd1.
        rewrite lex_plain.
        -- simpl in Hn. inversion Hr; subst.
           rewrite IH by (assumption || lia).
           simpl. now rewrite <- !app_assoc.
        -- apply N.eqb_neq. unfold c_quote. lia.
        -- apply N.eqb_neq. unfold c_backslash. lia.
        -- apply N.ltb_ge. lia.
      * destruct (is_trailing_surrogate c); [exact Hesc|].
        cbn [app]. rewrite lex_plain by assumption.
        apply IH; [lia | assumption].
Qed.

Lemma lex_QuoteJSONString (s : jstring) acc rest :
  utf16 s ->
  lex LIdle acc (QuoteJSONString s ++ rest)
  = lex LIdle (TScalar (JStr s) :: acc) rest.
Proof.
  intros Hs. unfold QuoteJSONString.
  change ((c_quote :: quote_units s ++ [c_quote]) ++ rest)
    with (c_quote :: (quote_units s ++ [c_quote]) ++ rest).
  rewrite <- app_assoc.
  change (lex LIdle acc (c_quote :: quote_units s ++ [c_quote] ++ rest))
    with (lex (LStr []) acc (quote_units s ++ [c_quote] ++ rest)).
  rewrite (@lex_quote_units (List.length s)) by (auto; lia).
  rewrite app_nil_r. cbn [app lex].
  change (c_quote =? c_quote)%N with true. cbv iota.
  now rewrite rev_involutive.
Qed.

(** [JSON.parse] reads the text [JSON.stringify] gives for a string as that
    string. *)
Lemma JSON_parse_QuoteJSONString (s : jstring) :
  utf16 s -> JSON_parse (QuoteJSONString s) = Some (JStr s).
Proof.
  intros Hs. unfold JSON_parse.
  rewrite <- (app_nil_r (QuoteJSONString s)), lex_QuoteJSONString by assumption.
  reflexivity.
Qed.

Lemma utf16_lit (s : string) : utf16 (lit s).
Proof.
  unfold utf16, lit. apply Forall_forall. intros c Hc.
  apply in_map_iff in Hc. destruct Hc as [a [<- _]].
  unfold ch. pose proof (N_ascii_bounded a). lia.
Qed.

Lemma lex_punct (c : N) (t : token) acc rest :
  lex_idle c = Some (LIdle, [t]) ->
  lex LIdle acc (c :: rest) = lex LIdle (t :: acc) rest.
Proof. intros H. cbn [lex]. now rewrite H. Qed.

Lemma lex_null acc rest :
  lex LIdle acc (lit "null" ++ rest) = lex LIdle (TScalar JNull :: acc) rest.
Proof. reflexivity. Qed.

Ltac lex_member :=
  first [ rewrite lex_QuoteJSONString by assumption
        | rewrite lex_null
        | rewrite (@lex_punct (ch "{") TLBrace) by reflexivity
        | rewrite (@lex_punct (ch "}") TRBrace) by reflexivity
        | rewrite (@lex_punct (ch ":") TColon) by reflexivity
        | rewrite (@lex_punct (ch ",") TComma) by reflexivity ];
  cbn [app].

Lemma chat_body_parses (message : jstring) (conversationId : property) :
  utf16 message -> utf16_property conversationId ->
  JSON_parse (JSON_stringify [ (lit "message", PString message);
                               (lit "conversation_id", conversationId) ])
  = Some (JObj (parsed_members message conversationId)).
Proof.
  intros Hm Hc. unfold JSON_parse, JSON_stringify.
  pose proof (utf16_lit "message") as Hk1.
  pose proof (utf16_lit "conversation_id") as Hk2.
  destruct conversationId as [| |id];
    cbn [members SerializeJSONProperty join];
    change (lit "{") with [ch "{"]; change (lit "}") with [ch "}"];
    change (lit ",") with [ch ","]; change (lit ":") with [ch ":"];
    repeat rewrite <- app_assoc; cbn [app];
    repeat lex_member; reflexivity.
Qed.

Lemma lookup_parsed_members (message : jstring) (conversationId : property) :
  lookup (lit "message") (parsed_members message conversationId)
  = Val (JStr message)
  /\ lookup (lit "conversation_id") (parsed_members message conversationId)
     = match conversationId with
       | PUndefined => Undefined
       | PNull => Val JNull
       | PString id => Val (JStr id)
       end.
Proof. destruct conversationId; split; reflexivity. Qed.

(** X12. The body [sendChatMessage] and [sendChatMessageStream] send is read
    back by [JSON.parse] as an object holding exactly the arguments: its
    [message] is the message passed, code unit for code unit, whatever
    quotes, backslashes, control characters or lone surrogates it holds, and
    its [conversation_id] is the id passed, [null] for [null], and absent
    when the id is [undefined]. *)
Theorem chat_body_reads_back_as_sent (tail : string)
    (sessionId message : jstring) (conversationId : property) :
  utf16 message -> utf16_property conversationId ->
  JSON_parse (body (chat_request tail sessionId message conversationId))
  = Some (JObj (parsed_members message conversationId))
  /\ lookup (lit "message") (parsed_members message conversationId)
     = Val (JStr message)
  /\ lookup (lit "conversation_id") (parsed_members message conversationId)
     = match conversationId with
       | PUndefined => Undefined
       | PNull => Val JNull
       | PString id => Val (JStr id)
       end.
Proof.
  intros Hm Hc. split.
  - apply chat_body_parses; assumption.
  - apply lookup_parsed_members.
Qed.

(** X13. The two chat functions send the same request but for the URL, which
    ends in [/sync] for [sendChatMessage]; they differ in what they do with
    a refusal.  On an answer whose status is outside 200..299
    [sendChatMessage] rejects with an [ApiError] of that status, while
    [sendChatMessageStream], which does not call [handleResponse], resolves
    with the response. *)
Theorem chat_stream_resolves_with_a_refusal
    (fetch : request -> Client.promise Client.Response)
    (sessionId message : jstring) (conversationId : property)
    (response : Client.Response) :
  Client.ok response = false ->
  fetch (chat_request "/sync" sessionId message conversationId)
    = Resolved response ->
  fetch (chat_request "" sessionId message conversationId)
    = Resolved response ->
  (exists details,
      sendChatMessage fetch sessionId message conversationId
      = Rejected (Client.ApiError
                    (lit "API Error: " ++ show_N (Client.status response))
                    (Client.status response) details))
  /\ sendChatMessageStream fetch sessionId message conversationId
     = Resolved response
  /\ url (chat_request "/sync" sessionId message conversationId)
     = url (chat_request "" sessionId message conversationId) ++ lit "/sync"
  /\ method (chat_request "/sync" sessionId message conversationId)
     = method (chat_request "" sessionId message conversationId)
  /\ headers (chat_request "/sync" sessionId message conversationId)
     = headers (chat_request "" sessionId message conversationId)
  /\ body (chat_request "/sync" sessionId message conversationId)
     = body (chat_request "" sessionId message conversationId).
Proof.
  intros Hok Hsync Hstream. split; [|split; [|split; [|repeat split]]].
  - destruct (handleResponse_not_ok _ Hok) as [details [Hd _]].
    exists details. unfold sendChatMessage. rewrite Hsync. exact Hd.
  - unfold sendChatMessageStream. exact Hstream.
  - unfold chat_request, url.
    change (lit "") with (@nil N). rewrite app_nil_r.
    now rewrite <- !app_assoc.
Qed.

End ChatFacts.

Lemma chat_body_reads_back_as_sent_witness :
  JS.JSON_parse
    (Chat.body (Chat.chat_request "/sync" (JS.lit "abc-123") awkward_message
                  Chat.PNull))
  = Some (JS.JObj (Chat.parsed_members awkward_message Chat.PNull))
  /\ JS.lookup (JS.lit "message") (Chat.parsed_members awkward_message Chat.PNull)
     = JS.Val (JS.JStr awkward_message)
  /\ JS.lookup (JS.lit "conversation_id")
       (Chat.parsed_members awkward_message Chat.PNull)
     = JS.Val JS.JNull.
Proof.
  apply (@chat_body_reads_back_as_sent "/sync" (JS.lit "abc-123")
           awkward_message Chat.PNull).
  - unfold Chat.utf16, awkward_message.
    repeat (apply Forall_cons; [reflexivity|]). apply Forall_nil.
  - exact I.
Defined.

Lemma chat_stream_resolves_with_a_refusal_witness :
  (exists details,
      Chat.sendChatMessage chat_unavailable (JS.lit "abc-123")
        (JS.lit "hello") Chat.PUndefined
      = JS.Rejected (Client.ApiError (JS.lit "API Error: 503") 503 details))
  /\ Chat.sendChatMessageStream chat_unavailable (JS.lit "abc-123")
       (JS.lit "hello") Chat.PUndefined
     = JS.Resolved (Client.mkResponse 503 (JS.lit "Service Unavailable")).
Proof.
  destruct (@chat_stream_resolves_with_a_refusal chat_unavailable
              (JS.lit "abc-123") (JS.lit "hello") Chat.PUndefined
              (Client.mkResponse 503 (JS.lit "Service Unavailable"))
              eq_refl eq_refl eq_refl) as [H1 [H2 _]].
  split; [exact H1 | exact H2].
Defined.

Section ChatInterfaceFacts.
Import JS ChatInterface.

Lemma trim_start_head (s : jstring) (c : N) (r : jstring) :
  trim_start s = c :: r -> is_white_space c = false.
Proof.
  induction s as [|x s IH]; [discriminate|].
  simpl. destruct (is_white_space x) eqn:Hx; [exact IH|].
  intros [= <- _]. exact Hx.
Qed.

Lemma trim_start_suffix (s : jstring) :
  exists p, s = p ++ trim_start s /\ forallb is_white_space p = true.
Proof.
  induction s as [|x s [p [Hp Hw]]]; [exists []; auto|].
  simpl. destruct (is_white_space x) eqn:Hx.
  - exists (x :: p). simpl. rewrite Hx, Hw. split; [now f_equal | reflexivity].
  - exists []. auto.
Qed.

Lemma trim_start_nil (s : jstring) :
  trim_start s = [] <-> forallb is_white_space s = true.
Proof.
  induction s as [|x s IH]; [simpl; tauto|].
  simpl. destruct (is_white_space x); simpl; [exact IH|].
  split; discriminate.
Qed.

Lemma forallb_rev (f : N -> bool) (l : list N) :
  forallb f (rev l) = forallb f l.
Proof.
  induction l as [|x l IH]; [reflexivity|].
  simpl. rewrite forallb_app, IH. simpl. rewrite andb_true_r. apply andb_comm.
Qed.

Lemma rev_nil_iff (l : list N) : rev l = [] <-> l = [].
Proof.
  split; [|intros ->; reflexivity].
  intros H. apply (f_equal (@rev N)) in H. now rewrite rev_involutive in H.
Qed.

(** The trimmed text is empty exactly when the text is all white space. *)
Lemma trim_nil (s : jstring) :
  trim s = [] <-> forallb is_white_space s = true.
Proof.
  unfold trim, trim_end.
  rewrite rev_nil_iff, trim_start_nil, forallb_rev.
  rewrite <- (trim_start_nil s).
  split; [|intros ->; reflexivity].
  destruct (trim_start s) as [|c r] eqn:Ht; [reflexivity|].
  apply trim_start_head in Ht. simpl. rewrite Ht. discriminate.
Qed.

(** A trimmed text that is not empty has no white space at either end. *)
Lemma trim_ends (s : jstring) (c : N) (inner : jstring) :
  trim s = c :: inner ->
  is_white_space c = false /\ is_white_space (last inner c) = false.
Proof.
  unfold trim, trim_end. intros H.
  apply (f_equal (@rev N)) in H. rewrite rev_involutive in H.
  split.
  - destruct (trim_start_suffix (rev (trim_start s))) as [p [Hp _]].
    rewrite H in Hp.
    apply (f_equal (@rev N)) in Hp.
    rewrite rev_involutive, rev_app_distr, rev_involutive in Hp.
    simpl in Hp. exact (trim_start_head _ Hp).
  - assert (Hl : rev (c :: inner)
                 = last inner c :: rev (removelast (c :: inner))).
    { assert (Hne : c :: inner <> []) by discriminate.
      rewrite (app_removelast_last c Hne) at 1.
      rewrite rev_app_distr. simpl.
      destruct inner; reflexivity. }
    rewrite Hl in H. exact (trim_start_head _ H).
Qed.

(** X14. The chat component makes no request for a text that is all white
    space, nor while an answer is awaited.  When it makes one, it is the
    request [sendChatMessage] of the client makes for the trimmed text: the
    URL written out in the component is the client's, and the message sent
    is not empty and has no white space at either end. *)
Theorem chat_component_sends_the_client_request
    (sessionId : jstring) (conversationId : option jstring)
    (isLoading : bool) (messageText : jstring) :
  (sendMessage_fetch sessionId conversationId isLoading messageText = None
   <-> forallb is_white_space messageText = true \/ isLoading = true)
  /\ (forall r,
        sendMessage_fetch sessionId conversationId isLoading messageText
        = Some r ->
        r = Chat.chat_request "/sync" sessionId (trim messageText)
              match conversationId with
              | None => Chat.PNull
              | Some id => Chat.PString id
              end
        /\ exists c inner,
             trim messageText = c :: inner
             /\ is_white_space c = false
             /\ is_white_space (last inner c) = false).
Proof.
  unfold sendMessage_fetch. split.
  - destruct (trim messageText) as [|c inner] eqn:Ht.
    + simpl. apply trim_nil in Ht. tauto.
    + simpl. destruct isLoading.
      * tauto.
      * split; [discriminate|].
        intros [Hw | Hl]; [|discriminate].
        apply trim_nil in Hw. congruence.
  - intros r. destruct (trim messageText) as [|c inner] eqn:Ht;
      [discriminate|].
    simpl. destruct isLoading; [discriminate|].
    intros [= <-]. split; [reflexivity|].
    exists c, inner. split; [reflexivity|].
    exact (trim_ends _ Ht).
Qed.

End ChatInterfaceFacts.
